(** * enthought.mayavi.tools.sources: argument normalisers and data-source builders

    A shallow embedding of [src/enthought/mayavi/tools/sources.py] and the
    properties of it that the specification states.

    Conventions of the embedding.
    - The module is Python 2 code of 2007 (it uses [raise E, "msg"]).  An
      exception is a value of [exc]; a computation that may raise is a
      [result].  [assert] statements are executed (no [-O]).
    - A numpy array is its shape together with its elements in row-major (C)
      order.  Numbers are exact rationals ([Qc]): neither the rounding of
      float64 nor the wrap-around of int64 is modelled, so an arithmetic
      result of the model ([a - b], the inner samples of [numpy.linspace]) is
      the interpreter's only where the machine operation is exact.  The
      properties below state numeric values only where it is: on 0, 0.5, 1,
      -2.0, 1.5 and small integers; elsewhere they speak of shapes, of
      positions, of least and greatest elements and of values passed on
      unchanged.
    - numpy is the numpy of the module's time: [s == None] is [False] for
      every array [s].
    - The renderer-side collaborators ([mlab.Glyphs], [ArraySource],
      [tvtk.PolyData], ...) are opaque to this module: a data source is the
      record of the constructor arguments and of the attributes assigned to it
      afterwards. *)

From Stdlib Require Import ZArith QArith Qcanon Qround String List Lia.
From stdpp Require Import base option list strings gmap numbers.

Set Warnings "-notation-for-abbreviation,-register-all".

Local Open Scope string_scope.
Local Open Scope list_scope.
Local Open Scope nat_scope.

(** ** Exceptions and results *)

Inductive exc :=
| ValueError (msg : string)
| AssertionError (msg : string)
| AttributeError
| IndexError
| TypeError.

Inductive result (A : Type) :=
| Ok (a : A)
| Raise (e : exc).
Arguments Ok {A} a.
Arguments Raise {A} e.

#[global] Instance result_ret : MRet result := @Ok.
#[global] Instance result_bind : MBind result :=
  λ A B f m, match m with Ok a => f a | Raise e => Raise e end.

(** ** Arrays *)

Record ndarray (A : Type) := NdArray { shape : list nat; data : list A }.
Arguments NdArray {A} shape data.
Arguments shape {A} n.
Arguments data {A} n.

Notation arr := (ndarray Qc).

Definition numel (sh : list nat) : nat := foldr Nat.mul 1 sh.

(** An array of the interpreter always holds as many elements as its shape
    says. *)
Definition wf {A} (a : ndarray A) : Prop := length (data a) = numel (shape a).

#[global] Instance wf_dec {A} (a : ndarray A) : Decision (wf a).
Proof. unfold wf. apply _. Defined.

(** A number seen as a 0-d array. *)
Definition scalar (q : Qc) : arr := NdArray [] [q].

Definition Qc_of_nat (n : nat) : Qc := Qc_of_Z (Z.of_nat n).

(** ** Python values *)

(** First-order objects, and callables over them.  A callable of the model
    receives and returns first-order objects. *)
Inductive obj :=
| ONone
| OStr (s : string)
| OArr (a : arr)
| OTuple (l : list obj).

Inductive value :=
| VObj (o : obj)
| VCallable (f : list obj → result obj).

Notation VNone := (VObj ONone).
Notation VStr s := (VObj (OStr s)).
Notation VArr a := (VObj (OArr a)).

(** [callable(v)] *)
Definition callable (v : value) : bool :=
  match v with VCallable _ => true | VObj _ => false end.

(** [v.shape]: only arrays have the attribute.  The array is returned with it,
    so that a caller which has read the attribute holds an array. *)
Definition ndarray_of (v : value) : result arr :=
  match v with
  | VArr a => Ok a
  | _ => Raise AttributeError
  end.

Definition as_obj (v : value) : option obj :=
  match v with VObj o => Some o | VCallable _ => None end.

(** [f(a, b, ...)].  A callable of the model receives first-order objects
    only.  A call that passes a callable as an argument is cut short with
    [TypeError]; the interpreter would run [f] on it and fail afterwards, when
    the [.shape] of that coordinate is read ([AttributeError]).  No property
    below concerns such a call. *)
Definition call (f : list obj → result obj) (vs : list value) : result obj :=
  match mapM as_obj vs with
  | Some os => f os
  | None => Raise TypeError
  end.

Definition need_more (n : nat) : string :=
  match n with
  | 0 => "need more than 0 values to unpack"
  | 1 => "need more than 1 value to unpack"
  | _ => "need more than 2 values to unpack"
  end.

(** The rows of an array along its first axis, as iteration yields them. *)
Definition rows (a : arr) : list arr :=
  match shape a with
  | [] => []
  | n :: rest =>
      NdArray rest <$> reshape (replicate n (numel rest)) (data a)
  end.

Fixpoint chars (s : string) : list obj :=
  match s with
  | EmptyString => []
  | String c s' => OStr (String c EmptyString) :: chars s'
  end.

(** The items iteration over an object yields. *)
Definition iterate (o : obj) : result (list obj) :=
  match o with
  | ONone => Raise TypeError
  | OStr s => Ok (chars s)
  | OArr a => match shape a with [] => Raise TypeError | _ => Ok (OArr <$> rows a) end
  | OTuple l => Ok l
  end.

(** [a, b, c = o] *)
Definition unpack3 (o : obj) : result (obj * obj * obj) :=
  l ← iterate o;
  match l with
  | [a; b; c] => Ok (a, b, c)
  | _ :: _ :: _ :: _ :: _ => Raise (ValueError "too many values to unpack")
  | _ => Raise (ValueError (need_more (length l)))
  end.

(** [a, b = sh] for a shape tuple *)
Definition unpack2 (sh : list nat) : result (nat * nat) :=
  match sh with
  | [a; b] => Ok (a, b)
  | _ :: _ :: _ :: _ => Raise (ValueError "too many values to unpack")
  | _ => Raise (ValueError (need_more (length sh)))
  end.

(** ** numpy *)

(** [numpy.indices((a, b, c))]: element (i,j,k) of the three arrays is i, j
    and k. *)
Definition indices3 (a b c : nat) : arr * arr * arr :=
  let flat := seq 0 (a * b * c) in
  (NdArray [a; b; c] ((λ n, Qc_of_nat (n / (b * c))) <$> flat),
   NdArray [a; b; c] ((λ n, Qc_of_nat ((n / c) `mod` b)) <$> flat),
   NdArray [a; b; c] ((λ n, Qc_of_nat (n `mod` c)) <$> flat)).

(** [numpy.indices((a, b))] *)
Definition indices2 (a b : nat) : arr * arr :=
  let flat := seq 0 (a * b) in
  (NdArray [a; b] ((λ n, Qc_of_nat (n / b)) <$> flat),
   NdArray [a; b] ((λ n, Qc_of_nat (n `mod` b)) <$> flat)).

(** [a.ravel()] *)
Definition ravel {A} (a : ndarray A) : ndarray A :=
  NdArray [numel (shape a)] (data a).

(** ** Argument processing *)

Definition shape_msg : string := "argument shape are not equal".

(** [process_regular_vectors]: converts the signatures to
    (x, y, z, u, v, w). *)
Definition process_regular_vectors (args : list value)
  : result (arr * arr * arr * arr * arr * arr) :=
  '(x, y, z, u, v, w) ←
    match args with
    | [u; v; w] =>
        au ← ndarray_of u;
        match shape au with
        | [a; b; c] =>
            let '(x, y, z) := indices3 a b c in
            Ok (VArr x, VArr y, VArr z, u, v, w)
        | _ => Raise (AssertionError "3D array required")
        end
    | [x; y; z; u; v; w] => Ok (x, y, z, u, v, w)
    | [x; y; z; f] =>
        match f with
        | VCallable fn =>
            r ← call fn [x; y; z];
            '(u, v, w) ← unpack3 r;
            Ok (x, y, z, VObj u, VObj v, VObj w)
        | VObj _ =>
            Raise (ValueError
              "When 4 arguments are provided, the fourth must be a callable")
        end
    | _ => Raise (ValueError "wrong number of arguments")
    end;
  ax ← ndarray_of x;
  ay ← ndarray_of y;
  if negb (bool_decide (shape ax = shape ay)) then Raise (AssertionError shape_msg) else
  az ← ndarray_of z;
  if negb (bool_decide (shape ay = shape az)) then Raise (AssertionError shape_msg) else
  au ← ndarray_of u;
  if negb (bool_decide (shape au = shape az)) then Raise (AssertionError shape_msg) else
  av ← ndarray_of v;
  if negb (bool_decide (shape av = shape au)) then Raise (AssertionError shape_msg) else
  aw ← ndarray_of w;
  if negb (bool_decide (shape aw = shape av)) then Raise (AssertionError shape_msg) else
  Ok (ax, ay, az, au, av, aw).

(** [s is None], and [s == None] on the numpy of the module's time, where no
    array equals [None]. *)
Definition is_None (v : value) : bool :=
  match v with VNone => true | _ => false end.

(** [process_regular_scalars]: converts the signatures to (x, y, z, s).  The
    scalars are [None] when they are absent. *)
Definition process_regular_scalars (args : list value)
  : result (arr * arr * arr * option arr) :=
  '(x, y, z, s) ←
    match args with
    | [s] =>
        a_s ← ndarray_of s;
        match shape a_s with
        | [a; b; c] =>
            let '(x, y, z) := indices3 a b c in
            Ok (VArr x, VArr y, VArr z, s)
        | _ => Raise (AssertionError "3D array required")
        end
    | [x; y; z] => Ok (x, y, z, VNone)
    | [x; y; z; s] =>
        match s with
        | VCallable fn => r ← call fn [x; y; z]; Ok (x, y, z, VObj r)
        | VObj _ => Ok (x, y, z, s)
        end
    | _ => Raise (ValueError "wrong number of arguments")
    end;
  ax ← ndarray_of x;
  ay ← ndarray_of y;
  if negb (bool_decide (shape ax = shape ay)) then Raise (AssertionError shape_msg) else
  az ← ndarray_of z;
  if negb (bool_decide (shape ay = shape az)) then Raise (AssertionError shape_msg) else
  if is_None s then Ok (ax, ay, az, None) else
  a_s ← ndarray_of s;
  if negb (bool_decide (shape a_s = shape az)) then Raise (AssertionError shape_msg) else
  Ok (ax, ay, az, Some a_s).

(** [process_regular_2d_scalars]: converts the signatures to (x, y, s). *)
Definition process_regular_2d_scalars (args : list value)
  : result (arr * arr * arr) :=
  '(x, y, s) ←
    match args with
    | [s] =>
        a_s ← ndarray_of s;
        match shape a_s with
        | [a; b] =>
            let '(x, y) := indices2 a b in
            Ok (VArr x, VArr y, s)
        | _ => Raise (AssertionError "2D array required")
        end
    | [x; y; s] =>
        match s with
        | VCallable fn => r ← call fn [x; y]; Ok (x, y, VObj r)
        | VObj _ => Ok (x, y, s)
        end
    | _ => Raise (ValueError "wrong number of arguments")
    end;
  ax ← ndarray_of x;
  ay ← ndarray_of y;
  if negb (bool_decide (shape ax = shape ay)) then Raise (AssertionError shape_msg) else
  a_s ← ndarray_of s;
  if negb (bool_decide (shape a_s = shape ay)) then Raise (AssertionError shape_msg) else
  Ok (ax, ay, a_s).

(** ** More of numpy *)

(** [a[i, j, k]]: the sub-array at that index (a 0-d array when [a] has three
    axes); [IndexError] when an index is out of bounds or [a] has fewer than
    three axes. *)
Definition getitem3 (a : arr) (i j k : nat) : result arr :=
  match shape a with
  | n0 :: n1 :: n2 :: rest =>
      if bool_decide (i < n0 ∧ j < n1 ∧ k < n2) then
        let m := numel rest in
        Ok (NdArray rest (take m (drop (((i * n1 + j) * n2 + k) * m) (data a))))
      else Raise IndexError
  | _ => Raise IndexError
  end.

(** [a[i, j]] on an array of two axes. *)
Definition getitem2 (a : arr) (i j : nat) : result Qc :=
  match shape a with
  | [n0; n1] =>
      if bool_decide (i < n0 ∧ j < n1) then
        match data a !! (i * n1 + j) with
        | Some q => Ok q
        | None => Raise IndexError
        end
      else Raise IndexError
  | _ => Raise IndexError
  end.

(** [a - b], element by element, for operands of one shape.  The difference is
    the exact one: it is numpy's where the machine subtraction neither rounds
    nor wraps around. *)
Definition arr_sub (a b : arr) : arr :=
  NdArray (shape a) (zip_with Qcminus (data a) (data b)).

Definition Qc_min (p q : Qc) : Qc := if decide (p ≤ q)%Qc then p else q.
Definition Qc_max (p q : Qc) : Qc := if decide (p ≤ q)%Qc then q else p.

(** [a.min()] and [a.max()]: an empty array has neither. *)
Definition amin (a : arr) : result Qc :=
  match data a with
  | [] => Raise (ValueError "zero-size array to minimum.reduce without identity")
  | q :: l => Ok (foldl Qc_min q l)
  end.

Definition amax (a : arr) : result Qc :=
  match data a with
  | [] => Raise (ValueError "zero-size array to maximum.reduce without identity")
  | q :: l => Ok (foldl Qc_max q l)
  end.

(** [numpy.linspace(start, stop, num)]: [num] samples, the first [start] and,
    for [num >= 2], the last [stop].  The samples in between are the exact
    ones, which numpy rounds to float64. *)
Definition linspace (start stop : Qc) (num : nat) : arr :=
  match num with
  | 0 => NdArray [0] []
  | 1 => NdArray [1] [start]
  | _ =>
      let step := ((stop - start) / Qc_of_nat (num - 1))%Qc in
      NdArray [num] ((λ i, (Qc_of_nat i * step + start)%Qc) <$> seq 0 num)
  end.

(** [a[..., numpy.newaxis]] *)
Definition newaxis (a : arr) : arr := NdArray (shape a ++ [1]) (data a).

(** [numpy.concatenate([a, b, c], axis=3)] for three arrays of one shape:
    along the fourth axis the blocks of [a], [b] and [c] follow each other.
    (Arrays of fewer than four axes have no such axis; [vectorfield] never
    passes one, the indexing before it needs three axes and [newaxis] adds
    one.) *)
Definition concatenate_axis3 (a b c : arr) : result arr :=
  match shape a with
  | n0 :: n1 :: n2 :: d :: rest =>
      let m := d * numel rest in
      let blocks l := reshape (replicate (n0 * n1 * n2) m) l in
      Ok (NdArray (n0 :: n1 :: n2 :: 3 * d :: rest)
            (concat (zip_with (λ p r, p ++ r)
                       (zip_with (λ p q, p ++ q) (blocks (data a)) (blocks (data b)))
                       (blocks (data c)))))
  | _ => Raise (ValueError "bad axis1 argument to swapaxes")
  end.

Fixpoint interleave3 {A} (a b c : list A) : list A :=
  match a, b, c with
  | p :: a', q :: b', r :: c' => p :: q :: r :: interleave3 a' b' c'
  | _, _, _ => []
  end.

(** [numpy.c_[a, b, c]] for 1-d arrays (every use passes raveled arrays):
    they become the columns of an (n, 3) array. *)
Definition c_ (a b c : arr) : result arr :=
  match shape a, shape b, shape c with
  | [n], [nb], [nc] =>
      if bool_decide (n = nb ∧ nb = nc)
      then Ok (NdArray [n; 3] (interleave3 (data a) (data b) (data c)))
      else Raise (ValueError "array dimensions must agree except for d_0")
  | _, _, _ => Raise (ValueError "array dimensions must agree except for d_0")
  end.

(** [len(a)] *)
Definition len {A} (a : ndarray A) : nat :=
  match shape a with n :: _ => n | [] => 0 end.

(** [numpy.zeros((n, 2), 'l')] *)
Definition zeros2 (n : Z) : result (ndarray Z) :=
  if bool_decide (n < 0)%Z
  then Raise (ValueError "negative dimensions are not allowed")
  else Ok (NdArray [Z.to_nat n; 2] (replicate (Z.to_nat n * 2) 0%Z)).

(** [numpy.arange(start, stop, step, 'l')] with integer [start] and [step]
    and a fractional [stop]: ceil((stop - start) / step) values. *)
Definition arange (start : Z) (stop : Qc) (step : Z) : list Z :=
  let n := Qceiling ((stop - Qc_of_Z start) / Qc_of_Z step)%Qc in
  (λ i, (start + Z.of_nat i * step)%Z) <$> seq 0 (Z.to_nat n).

(** [a[:, c] = v] on an array of two axes: [v] must have one value per row,
    or a single value that is repeated. *)
Definition set_column (a : ndarray Z) (c : nat) (v : list Z) : result (ndarray Z) :=
  match shape a with
  | [n; w] =>
      if bool_decide (c < w) then
        if bool_decide (length v = n) then
          Ok (NdArray [n; w]
                (imap (λ k old, if bool_decide (k `mod` w = c)
                                then default old (v !! (k / w)) else old) (data a)))
        else
          match v with
          | [z] =>
              Ok (NdArray [n; w]
                    (imap (λ k old, if bool_decide (k `mod` w = c) then z else old)
                       (data a)))
          | _ => Raise (ValueError "shape mismatch: objects cannot be broadcast to a single shape")
          end
      else Raise IndexError
  | _ => Raise IndexError
  end.

(** Row-major offsets: the offset of a multi-index, and the multi-index of an
    offset, last axis first. *)
Definition ravel_index (sh idx : list nat) : nat :=
  foldl (λ acc '(n, i), acc * n + i) 0 (zip sh idx).

Fixpoint unravel_rev (sh_rev : list nat) (k : nat) : list nat :=
  match sh_rev with
  | [] => []
  | n :: r => k `mod` n :: unravel_rev r (k / n)
  end.

(** [a.T]: the axes reversed.  Element (i0, ..., im) of [a.T] is element
    (im, ..., i0) of [a]. *)
Definition transpose (a : arr) : arr :=
  let sh := shape a in
  NdArray (reverse sh)
    (k ← seq 0 (numel sh);
     option_list (data a !! ravel_index sh (unravel_rev sh k))).

(** ** Keyword arguments *)

(** [kwargs.pop(key, dflt)]: the value and the dictionary without the key. *)
Definition pop (key : string) (dflt : value) (kwargs : gmap string value)
  : value * gmap string value :=
  (default dflt (kwargs !! key), delete key kwargs).

(** ** Data sources *)

(** The keyword arguments [ArraySource] is constructed with; [None] is a
    keyword that was not passed. *)
Record array_source := {
  transpose_input_array : option bool;
  scalar_data : option value;
  vector_data : option arr;
  origin : list Qc;
  spacing : list arr
}.

(** [tvtk.PolyData(points=, lines=)] and its [point_data.scalars]. *)
Record poly_data := {
  pd_points : arr;
  pd_lines : ndarray Z;
  pd_scalars : option arr
}.

(** The container [mlab._create_structured_points_direct(xa, ya)] returns,
    and the attributes assigned to it. *)
Record structured_points := {
  sp_xa : arr;
  sp_ya : arr;
  sp_scalars : option arr;
  scalar_type : option string;
  number_of_scalar_components : option Z
}.

Inductive data_source :=
| GlyphData (points : arr) (vectors : value) (scalars : value)
| ArraySource (a : array_source)
| PolyData (p : poly_data)
| StructuredPoints (s : structured_points)
| TrianglePolyData (x y z scalars : value).

(** [_make_glyph_data(points, vectors, scalars)]: [mlab.Glyphs(...).poly_data] *)
Definition _make_glyph_data (points : arr) (vectors scalars : value) : data_source :=
  GlyphData points vectors scalars.

(** [mlab._create_structured_points_direct(xa, ya)] *)
Definition _create_structured_points_direct (xa ya : arr) : structured_points :=
  {| sp_xa := xa; sp_ya := ya; sp_scalars := None;
     scalar_type := None; number_of_scalar_components := None |}.

(** What a builder returns: the call of the registration collaborator. *)
Record registered := AddData { reg_source : data_source; reg_name : value }.

(** Modelled from the spec: [tools._add_data] is not part of the sources at
    hand.  It is the registration collaborator, "a function taking (built
    object, display name) and returning the object attached to a visualization
    scene"; the module passes its return value on uninspected. *)
Definition _add_data (data_source : data_source) (name : value) : registered :=
  AddData data_source name.

Definition value_of_option (s : option arr) : value :=
  match s with Some a => VArr a | None => VNone end.

(** ** Sources *)

Definition vectorscatter (args : list value) (kwargs : gmap string value)
  : result registered :=
  '(x, y, z, u, v, w) ← process_regular_vectors args;
  points ← c_ (ravel x) (ravel y) (ravel z);
  vectors ← c_ (ravel u) (ravel v) (ravel w);
  let '(scalars, kwargs) := pop "scalar" VNone kwargs in
  let '(name, kwargs) := pop "name" (VStr "VectorScatter") kwargs in
  let data_source := _make_glyph_data points (VArr vectors) scalars in
  Ok (_add_data data_source name).

Definition vectorfield (args : list value) (kwargs : gmap string value)
  : result registered :=
  '(x, y, z, u, v, w) ← process_regular_vectors args;
  x100 ← getitem3 x 1 0 0; x000 ← getitem3 x 0 0 0;
  let dx := arr_sub x100 x000 in
  y010 ← getitem3 y 0 1 0; y000 ← getitem3 y 0 0 0;
  let dy := arr_sub y010 y000 in
  z001 ← getitem3 z 0 0 1; z000 ← getitem3 z 0 0 0;
  let dz := arr_sub z001 z000 in
  vectors ← concatenate_axis3 (newaxis u) (newaxis v) (newaxis w);
  let '(scalars, _) := pop "scalars" VNone kwargs in
  let kwargs : gmap string value := ∅ in
  let kwargs := if is_None scalars then kwargs
                else <["scalar_data" := scalars]> kwargs in
  xmin ← amin x; ymin ← amin y; zmin ← amin z;
  let data_source :=
    ArraySource {| transpose_input_array := Some true;
                   vector_data := Some vectors;
                   origin := [xmin; ymin; zmin];
                   spacing := [dx; dy; dz];
                   scalar_data := kwargs !! "scalar_data" |} in
  let '(name, kwargs) := pop "name" (VStr "VectorField") kwargs in
  Ok (_add_data data_source name).

Definition scalarscatter (args : list value) (kwargs : gmap string value)
  : result registered :=
  '(x, y, z, s) ← process_regular_scalars args;
  points ← c_ (ravel x) (ravel y) (ravel z);
  let s := ravel <$> s in
  let data_source := _make_glyph_data points VNone (value_of_option s) in
  let '(name, kwargs) := pop "name" (VStr "ScalarScatter") kwargs in
  Ok (_add_data data_source name).

Definition scalarfield (args : list value) (kwargs : gmap string value)
  : result registered :=
  '(x, y, z, s) ← process_regular_scalars args;
  points ← c_ (ravel x) (ravel y) (ravel z);
  x100 ← getitem3 x 1 0 0; x000 ← getitem3 x 0 0 0;
  let dx := arr_sub x100 x000 in
  y010 ← getitem3 y 0 1 0; y000 ← getitem3 y 0 0 0;
  let dy := arr_sub y010 y000 in
  z001 ← getitem3 z 0 0 1; z000 ← getitem3 z 0 0 0;
  let dz := arr_sub z001 z000 in
  p00 ← getitem2 points 0 0; p01 ← getitem2 points 0 1; p02 ← getitem2 points 0 2;
  let data_source :=
    ArraySource {| transpose_input_array := None;
                   scalar_data := Some (value_of_option s);
                   vector_data := None;
                   origin := [p00; p01; p02];
                   spacing := [dx; dy; dz] |} in
  let '(name, kwargs) := pop "name" (VStr "ScalarField") kwargs in
  Ok (_add_data data_source name).

Definition linesource (args : list value) (kwargs : gmap string value)
  : result registered :=
  if bool_decide (length args = 1)
  then Raise (ValueError "wrong number of arguments") else
  '(x, y, z, s) ← process_regular_scalars args;
  points ← c_ (ravel x) (ravel y) (ravel z);
  let np := (Z.of_nat (len points) - 1)%Z in
  lines ← zeros2 np;
  lines ← set_column lines 0 (arange 0 (Qc_of_Z np - Q2Qc (1 # 2)) 1);
  lines ← set_column lines 1 (arange 1 (Qc_of_Z np + Q2Qc (1 # 2)) 1);
  let data_source :=
    {| pd_points := points; pd_lines := lines; pd_scalars := None |} in
  let data_source :=
    match s with
    | Some s =>
        {| pd_points := pd_points data_source; pd_lines := pd_lines data_source;
           pd_scalars := Some (ravel s) |}
    | None => data_source
    end in
  let '(name, kwargs) := pop "name" (VStr "LineSource") kwargs in
  Ok (_add_data (PolyData data_source) name).

Definition array2dsource (args : list value) (kwargs : gmap string value)
  : result registered :=
  data_source ←
    match args with
    | [s] =>
        a_s ← ndarray_of s;
        '(nx, ny) ← unpack2 (shape a_s);
        Ok (ArraySource
              {| transpose_input_array := Some true;
                 scalar_data := Some s;
                 vector_data := None;
                 origin := [(Qc_of_Z (- Z.of_nat nx) / Qc_of_Z 2)%Qc;
                            (Qc_of_nat ny / Qc_of_Z 2)%Qc; Qc_of_Z 0];
                 spacing := [scalar 1%Qc; scalar 1%Qc; scalar 1%Qc] |})
    | _ =>
        '(x, y, s) ← process_regular_2d_scalars args;
        match shape s with
        | [nx; ny] =>
            xlo ← amin x; xhi ← amax x;
            let xa := linspace xlo xhi nx in
            ylo ← amin y; yhi ← amax y;
            let ya := linspace ylo yhi ny in
            let data_source := _create_structured_points_direct xa ya in
            let s := transpose s in
            let s := ravel s in
            Ok (StructuredPoints
                  {| sp_xa := sp_xa data_source; sp_ya := sp_ya data_source;
                     sp_scalars := Some s;
                     scalar_type := Some "unsigned_char";
                     number_of_scalar_components := Some 1%Z |})
        | _ => Raise (AssertionError "2D array required")
        end
    end;
  let '(name, kwargs) := pop "name" (VStr "Array2DSource") kwargs in
  Ok (_add_data data_source name).

(** [gridsource(x, y, z, **kwargs)]; [mlab.make_triangles_points] and
    [mlab.make_triangle_polydata] triangulate outside this module. *)
Definition gridsource (x y z : value) (kwargs : gmap string value)
  : result registered :=
  let '(scalars, kwargs) := pop "scalars" VNone kwargs in
  let scalars := if is_None scalars then z else scalars in
  let '(name, kwargs) := pop "name" (VStr "GridSource") kwargs in
  let data_source := TrianglePolyData x y z scalars in
  Ok (_add_data data_source name).

(** ** Notions used to state the properties *)

(** Sample data: [numpy.ones(sh)]. *)
Definition ones (sh : list nat) : arr := NdArray sh (replicate (numel sh) 1%Qc).

(** The value [o] of a callable is the triple (u, v, w): a tuple of the three
    arrays, or one array whose first axis has length three and whose three
    slices along it are u, v and w. *)
Definition is_triple (o : obj) (u v w : arr) : Prop :=
  o = OTuple [OArr u; OArr v; OArr w] ∨
  ∃ (a : arr) (rest : list nat),
    o = OArr a ∧ shape a = 3 :: rest ∧
    u = NdArray rest (take (numel rest) (data a)) ∧
    v = NdArray rest (take (numel rest) (drop (numel rest) (data a))) ∧
    w = NdArray rest (take (numel rest) (drop (2 * numel rest) (data a))).

(** A procedural field that returns its three arguments rotated: (z, x, y). *)
Definition rotating_field : list obj → result obj :=
  λ os, match os with
        | [a; b; c] => Ok (OTuple [c; a; b])
        | _ => Raise TypeError
        end.

(** The connectivity of a polyline of [m] consecutive segments: row [i] is
    (i, i + 1). *)
Definition segments (m : nat) : ndarray Z :=
  NdArray [m; 2] (i ← seq 0 m; [Z.of_nat i; Z.of_nat (i + 1)]).

(** The points of a builder: one row per element of the coordinate arrays. *)
Definition points_of (x y z : arr) : arr :=
  NdArray [numel (shape x); 3] (interleave3 (data x) (data y) (data z)).

(** Row [i] of a connectivity array. *)
Definition segment (l : ndarray Z) (i : nat) : option (Z * Z) :=
  a ← data l !! (i * 2); b ← data l !! (i * 2 + 1); Some (a, b).

(** Five collinear points: four segments. *)
Definition five_points : arr :=
  NdArray [5] [Q2Qc 0; Q2Qc 1; Q2Qc 2; Q2Qc 3; Q2Qc 4].

(** Scalars for the five points, in no particular order. *)
Definition five_scalars : arr :=
  NdArray [5] [Q2Qc 10; Q2Qc 30; Q2Qc 20; Q2Qc 50; Q2Qc 40].

(** Coordinate arrays that hold one point, and none. *)
Definition one_point : arr := NdArray [1] [Q2Qc 0].
Definition no_point : arr := NdArray [0] [].

(** A 2-by-3 array over its index grid. *)
Definition grid_s : arr :=
  NdArray [2; 3] [Q2Qc 1; Q2Qc 2; Q2Qc 3; Q2Qc 4; Q2Qc 5; Q2Qc 6].
Definition grid_x : arr := (indices2 2 3).1.
Definition grid_y : arr := (indices2 2 3).2.

(** What [array2dsource(grid_x, grid_y, grid_s)] registers. *)
Definition grid_registered : registered :=
  AddData
    (StructuredPoints
       {| sp_xa := linspace (Qc_of_nat 0) (Qc_of_nat 1) 2;
          sp_ya := linspace (Qc_of_nat 0) (Qc_of_nat 2) 3;
          sp_scalars :=
            Some (NdArray [6] [Q2Qc 1; Q2Qc 4; Q2Qc 2; Q2Qc 5; Q2Qc 3; Q2Qc 6]);
          scalar_type := Some "unsigned_char";
          number_of_scalar_components := Some 1%Z |})
    (VStr "Array2DSource").

(** Element (i, j, k) of an array of three axes. *)
Definition item3 (a : arr) (i j k : nat) : Qc :=
  default (Q2Qc 0) (data a !! ravel_index (shape a) [i; j; k]).

(** [m] is the least element of [a]. *)
Definition is_min (a : arr) (m : Qc) : Prop :=
  m ∈ data a ∧ ∀ q, q ∈ data a → (m ≤ q)%Qc.

(** The three deltas both builders take as spacing. *)
Definition deltas (x y z : arr) : list arr :=
  [scalar (item3 x 1 0 0 - item3 x 0 0 0)%Qc;
   scalar (item3 y 0 1 0 - item3 y 0 0 0)%Qc;
   scalar (item3 z 0 0 1 - item3 z 0 0 0)%Qc].

(** One half, and the grid [numpy.mgrid[1:0:-0.5, 0:1:0.5, 0:1:0.5]]: two
    samples per axis, x descending from 1 by steps of -0.5, y and z ascending
    from 0 by steps of 0.5.  Element (i, j, k) is at offset 4 i + 2 j + k. *)
Definition half : Qc := Q2Qc (1 # 2).
Definition descending_x : arr :=
  NdArray [2; 2; 2] [Q2Qc 1; Q2Qc 1; Q2Qc 1; Q2Qc 1; half; half; half; half].
Definition ascending_y : arr :=
  NdArray [2; 2; 2] [Q2Qc 0; Q2Qc 0; half; half; Q2Qc 0; Q2Qc 0; half; half].
Definition ascending_z : arr :=
  NdArray [2; 2; 2] [Q2Qc 0; half; Q2Qc 0; half; Q2Qc 0; half; Q2Qc 0; half].

(** Integer-valued elements. *)
Definition qs (l : list nat) : list Qc := Qc_of_nat <$> l.

(** [m] is the greatest element of [a]. *)
Definition is_max (a : arr) (m : Qc) : Prop :=
  m ∈ data a ∧ ∀ q, q ∈ data a → (q ≤ m)%Qc.

(** Element [i] of a flattened array. *)
Definition item1 (a : arr) (i : nat) : Qc := default (Q2Qc 0) (data a !! i).

(** Sample data: a 2-by-2-by-2 array of distinct values, and a procedural
    field that fails. *)
Definition cube : arr := NdArray [2; 2; 2] (qs [10; 11; 12; 13; 14; 15; 16; 17]).
Definition failing_field : list obj → result obj := λ _, Raise TypeError.

(** What [vectorfield(cube, cube, cube, scalars=cube)] registers. *)
Definition cube_field : registered :=
  AddData
    (ArraySource
       {| transpose_input_array := Some true;
          scalar_data := Some (VArr cube);
          vector_data :=
            Some (NdArray [2; 2; 2; 3] (interleave3 (data cube) (data cube) (data cube)));
          origin := [Q2Qc 0; Q2Qc 0; Q2Qc 0];
          spacing := [scalar (Q2Qc 1); scalar (Q2Qc 1); scalar (Q2Qc 1)] |})
    (VStr "VectorField").

(** Two coordinate arrays with the same least and greatest element. *)
Definition ramp : arr := NdArray [2; 3] (qs [0; 1; 2; 3; 4; 5]).
Definition bent : arr := NdArray [2; 3] (qs [5; 0; 0; 4; 1; 5]).

(** A coordinate array whose elements lie between 7 and 9. *)
Definition raised : arr := NdArray [2; 3] (qs [8; 9; 7; 8; 7; 9]).

(** * Properties *)

(** ** The normalisers on arrays *)

Ltac case_shapes :=
  repeat (case_bool_decide; simpl; try congruence).

(** Inversion of a successful bind. *)
Lemma bind_Ok {A B} (m : result A) (f : A → result B) (b : B) :
  m ≫= f = Ok b → ∃ a, m = Ok a ∧ f a = Ok b.
Proof. destruct m; simpl; [eauto | discriminate]. Qed.

(** The six shape tests of [process_regular_vectors] on six arrays. *)
Lemma process_regular_vectors_six (x y z u v w : arr) :
  process_regular_vectors [VArr x; VArr y; VArr z; VArr u; VArr v; VArr w] =
    if bool_decide (shape x = shape y ∧ shape y = shape z ∧ shape u = shape z ∧
                    shape v = shape u ∧ shape w = shape v)
    then Ok (x, y, z, u, v, w)
    else Raise (AssertionError shape_msg).
Proof.
  unfold process_regular_vectors; simpl.
  case_shapes; try reflexivity; exfalso; intuition congruence.
Qed.

Lemma process_regular_scalars_three (x y z : arr) :
  process_regular_scalars [VArr x; VArr y; VArr z] =
    if bool_decide (shape x = shape y ∧ shape y = shape z)
    then Ok (x, y, z, None)
    else Raise (AssertionError shape_msg).
Proof.
  unfold process_regular_scalars; simpl.
  case_shapes; try reflexivity; exfalso; intuition congruence.
Qed.

Lemma process_regular_scalars_four (x y z s : arr) :
  process_regular_scalars [VArr x; VArr y; VArr z; VArr s] =
    if bool_decide (shape x = shape y ∧ shape y = shape z ∧ shape s = shape z)
    then Ok (x, y, z, Some s)
    else Raise (AssertionError shape_msg).
Proof.
  unfold process_regular_scalars; simpl.
  case_shapes; try reflexivity; exfalso; intuition congruence.
Qed.

Lemma process_regular_2d_scalars_three (x y s : arr) :
  process_regular_2d_scalars [VArr x; VArr y; VArr s] =
    if bool_decide (shape x = shape y ∧ shape s = shape y)
    then Ok (x, y, s)
    else Raise (AssertionError shape_msg).
Proof.
  unfold process_regular_2d_scalars; simpl.
  case_shapes; try reflexivity; exfalso; intuition congruence.
Qed.

(** C2: a 6-argument call whose arrays share one shape returns the six
    arguments unchanged; a 6-argument call in which two of the arrays differ
    in shape raises the shape-mismatch error (the failed assertion). *)
Theorem process_regular_vectors_passthrough (x y z u v w : arr) :
  let arrays := [x; y; z; u; v; w] in
  ((∀ a b, a ∈ arrays → b ∈ arrays → shape a = shape b) →
   process_regular_vectors (VObj ∘ OArr <$> arrays) = Ok (x, y, z, u, v, w)) ∧
  ((∃ a b, a ∈ arrays ∧ b ∈ arrays ∧ shape a ≠ shape b) →
   process_regular_vectors (VObj ∘ OArr <$> arrays) = Raise (AssertionError shape_msg)).
Proof.
  intros arrays; subst arrays; simpl fmap.
  rewrite process_regular_vectors_six. split.
  - intros H. rewrite bool_decide_eq_true_2; [reflexivity|].
    repeat split; apply H; set_solver.
  - intros (a & b & Ha & Hb & Hne).
    rewrite bool_decide_eq_false_2; [reflexivity|].
    intros (Hxy & Hyz & Huz & Hvu & Hwv). apply Hne.
    assert (∀ c, c ∈ [x; y; z; u; v; w] → shape c = shape x) as Hall.
    { intros c Hc. set_unfold. intuition (subst; congruence). }
    rewrite (Hall a Ha), (Hall b Hb). reflexivity.
Qed.

Lemma process_regular_vectors_passthrough_witness :
  let a := ones [2; 2; 2] in
  let b := ones [2; 2; 3] in
  process_regular_vectors (VObj ∘ OArr <$> [a; a; a; a; a; a]) = Ok (a, a, a, a, a, a) ∧
  process_regular_vectors (VObj ∘ OArr <$> [a; a; a; a; a; b]) =
    Raise (AssertionError shape_msg).
Proof.
  intros a b. split.
  - apply (proj1 (process_regular_vectors_passthrough a a a a a a)).
    intros c d Hc Hd. set_unfold. intuition congruence.
  - apply (proj2 (process_regular_vectors_passthrough a a a a a b)).
    exists a, b. split; [set_solver|]. split; [set_solver|]. vm_compute. congruence.
Defined.

(** C7: in a 4-argument call, a fourth argument that is not callable raises
    the invalid-argument error.  When it is callable it is applied to
    (x, y, z): whenever the call returns, x, y, z are returned unchanged and
    u, v, w are the three items, in order, of the callable's value on them;
    the call does return when that value is a tuple of three arrays of the
    coordinates' shape; and what the callable raises is raised. *)
Theorem process_regular_vectors_callable :
  (∀ x y z f : value,
     callable f = false →
     process_regular_vectors [x; y; z; f] =
       Raise (ValueError "When 4 arguments are provided, the fourth must be a callable")) ∧
  (∀ (x y z : value) (fn : list obj → result obj) r,
     process_regular_vectors [x; y; z; VCallable fn] = Ok r →
     ∃ (ax ay az u v w : arr) (o : obj),
       r = (ax, ay, az, u, v, w) ∧
       x = VArr ax ∧ y = VArr ay ∧ z = VArr az ∧
       fn [OArr ax; OArr ay; OArr az] = Ok o ∧ is_triple o u v w) ∧
  (∀ (ax ay az u v w : arr) (fn : list obj → result obj),
     fn [OArr ax; OArr ay; OArr az] = Ok (OTuple [OArr u; OArr v; OArr w]) →
     shape ax = shape ay → shape ay = shape az → shape u = shape az →
     shape v = shape u → shape w = shape v →
     process_regular_vectors [VArr ax; VArr ay; VArr az; VCallable fn] =
       Ok (ax, ay, az, u, v, w)) ∧
  (∀ (ax ay az : arr) (fn : list obj → result obj) e,
     fn [OArr ax; OArr ay; OArr az] = Raise e →
     process_regular_vectors [VArr ax; VArr ay; VArr az; VCallable fn] = Raise e).
Proof.
  split; [|split; [|split]].
  - intros x y z f Hf. destruct f; [reflexivity | discriminate].
  - intros x y z fn r Hr. unfold process_regular_vectors in Hr.
    apply bind_Ok in Hr as ([[[[[vx vy] vz] vu] vv] vw] & Hcall & Hr).
    apply bind_Ok in Hcall as (o & Hfn & Hun).
    apply bind_Ok in Hun as ([[ou ov] ow] & Hun & Heq).
    injection Heq as <- <- <- <- <- <-.
    apply bind_Ok in Hr as (ax & Hax & Hr).
    apply bind_Ok in Hr as (ay & Hay & Hr).
    destruct (negb _); [discriminate|].
    apply bind_Ok in Hr as (az & Haz & Hr).
    destruct (negb _); [discriminate|].
    apply bind_Ok in Hr as (u & Hu & Hr).
    destruct (negb _); [discriminate|].
    apply bind_Ok in Hr as (v & Hv & Hr).
    destruct (negb _); [discriminate|].
    apply bind_Ok in Hr as (w & Hw & Hr).
    destruct (negb _); [discriminate|].
    injection Hr as <-.
    assert (∀ (t : value) (a : arr), ndarray_of t = Ok a → t = VArr a) as Harr.
    { intros t a Ht. destruct t as [[| | |]|]; try discriminate.
      by injection Ht as ->. }
    apply Harr in Hax as ->. apply Harr in Hay as ->. apply Harr in Haz as ->.
    apply Harr in Hu as [= ->]. apply Harr in Hv as [= ->].
    apply Harr in Hw as [= ->].
    unfold call in Hfn. simpl in Hfn.
    exists ax, ay, az, u, v, w, o.
    repeat (split; [done|]).
    unfold unpack3 in Hun. apply bind_Ok in Hun as (l & Hit & Hl).
    destruct l as [|a [|b [|c [|d l]]]]; try discriminate.
    injection Hl as -> -> ->.
    destruct o as [| s | a | l]; simpl in Hit; try discriminate.
    + injection Hit as Hs. exfalso.
      destruct s as [|c1 s]; [discriminate|]. discriminate.
    + right. destruct (shape a) as [|n rest] eqn:Hsh; [discriminate|].
      injection Hit as Hrows. unfold rows in Hrows. rewrite Hsh in Hrows.
      assert (n = 3) as ->.
      { apply (f_equal length) in Hrows.
        rewrite !length_fmap, length_reshape, length_replicate in Hrows.
        simpl in Hrows. lia. }
      simpl in Hrows. injection Hrows as <- <- <-.
      exists a, rest. repeat split; try done.
      rewrite drop_drop. do 3 f_equal. lia.
    + left. by injection Hit as ->.
  - intros ax ay az u v w fn Hfn Hxy Hyz Huz Hvu Hwv.
    unfold process_regular_vectors, call. simpl. rewrite Hfn. simpl.
    rewrite !bool_decide_eq_true_2 by assumption. reflexivity.
  - intros ax ay az fn e Hfn.
    unfold process_regular_vectors, call. simpl. by rewrite Hfn.
Qed.

Lemma process_regular_vectors_callable_witness :
  let x := (indices3 2 2 2).1.1 in
  let y := (indices3 2 2 2).1.2 in
  let z := (indices3 2 2 2).2 in
  process_regular_vectors [VArr x; VArr y; VArr z; VNone] =
    Raise (ValueError "When 4 arguments are provided, the fourth must be a callable") ∧
  (∃ (ax ay az u v w : arr) (o : obj),
     (x, y, z, z, x, y) = (ax, ay, az, u, v, w) ∧
     VArr x = VArr ax ∧ VArr y = VArr ay ∧ VArr z = VArr az ∧
     rotating_field [OArr ax; OArr ay; OArr az] = Ok o ∧ is_triple o u v w) ∧
  process_regular_vectors [VArr x; VArr y; VArr z; VCallable rotating_field] =
    Ok (x, y, z, z, x, y) ∧
  process_regular_vectors [VArr x; VArr y; VArr x; VCallable failing_field] =
    Raise TypeError.
Proof.
  intros x y z. split; [|split; [|split]].
  - apply (proj1 process_regular_vectors_callable (VArr x) (VArr y) (VArr z) VNone).
    reflexivity.
  - apply (proj1 (proj2 process_regular_vectors_callable)
             (VArr x) (VArr y) (VArr z) rotating_field (x, y, z, z, x, y)).
    reflexivity.
  - apply (proj1 (proj2 (proj2 process_regular_vectors_callable))
             x y z z x y rotating_field); reflexivity.
  - apply (proj2 (proj2 (proj2 process_regular_vectors_callable))
             x y x failing_field TypeError).
    reflexivity.
Defined.

(** ** Display names *)

Ltac inv_Ok H :=
  repeat match type of H with
  | _ ≫= _ = Ok _ =>
      let a := fresh "a" in let Ha := fresh "Ha" in
      apply bind_Ok in H as (a & Ha & H)
  | (let '(_, _) := ?p in _) = Ok _ => destruct p
  | (if ?c then _ else _) = Ok _ => destruct c eqn:?; try discriminate H
  | Ok _ = Ok _ => injection H as H
  end.

Lemma pop_name (d : value) (kwargs : gmap string value) :
  (pop "name" d kwargs).1 = default d (kwargs !! "name").
Proof. reflexivity. Qed.

(** Six of the seven builders hand the caller's [name] on. *)
Lemma vectorscatter_name args kwargs r :
  vectorscatter args kwargs = Ok r →
  reg_name r = default (VStr "VectorScatter") (kwargs !! "name").
Proof.
  unfold vectorscatter, pop. intros H. inv_Ok H. subst r. simpl.
  by rewrite lookup_delete_ne.
Qed.

Lemma scalarscatter_name args kwargs r :
  scalarscatter args kwargs = Ok r →
  reg_name r = default (VStr "ScalarScatter") (kwargs !! "name").
Proof. unfold scalarscatter, pop. intros H. inv_Ok H. by subst r. Qed.

Lemma scalarfield_name args kwargs r :
  scalarfield args kwargs = Ok r →
  reg_name r = default (VStr "ScalarField") (kwargs !! "name").
Proof. unfold scalarfield, pop. intros H. inv_Ok H. by subst r. Qed.

Lemma linesource_name args kwargs r :
  linesource args kwargs = Ok r →
  reg_name r = default (VStr "LineSource") (kwargs !! "name").
Proof. unfold linesource, pop. intros H. inv_Ok H. by subst r. Qed.

Lemma array2dsource_name args kwargs r :
  array2dsource args kwargs = Ok r →
  reg_name r = default (VStr "Array2DSource") (kwargs !! "name").
Proof. unfold array2dsource, pop. intros H. inv_Ok H. by subst r. Qed.

Lemma gridsource_name x y z kwargs r :
  gridsource x y z kwargs = Ok r →
  reg_name r = default (VStr "GridSource") (kwargs !! "name").
Proof.
  unfold gridsource, pop. intros H. inv_Ok H. subst r. simpl.
  by rewrite lookup_delete_ne.
Qed.

(** [vectorfield] rebinds [kwargs] to a fresh dictionary before it pops
    [name]: whatever the caller passed, the default is registered. *)
Lemma vectorfield_name args kwargs r :
  vectorfield args kwargs = Ok r → reg_name r = VStr "VectorField".
Proof.
  unfold vectorfield, pop. intros H. inv_Ok H; subst r; simpl.
  destruct (is_None _).
  - by rewrite lookup_empty.
  - rewrite lookup_insert_ne by done. by rewrite lookup_empty.
Qed.

(** Closed equations between results that differ only in how their numbers
    were computed. *)
Ltac same_numbers :=
  lazymatch goal with
  | |- @eq Qc _ _ => apply Qc_is_canon; reflexivity
  | |- _ => first [reflexivity | f_equal; same_numbers]
  end.

Ltac by_evaluation := vm_compute; same_numbers.

(** C3: the display name of a builder is the caller's [name] keyword, or the
    builder's default literal.  [vectorfield] does not honour it: called with
    [name="wind"] it registers its object under "VectorField". *)
Theorem vectorfield_name_keyword_lost :
  let u := ones [2; 2; 2] in
  vectorfield [VArr u; VArr u; VArr u] {[ "name" := VStr "wind" ]} =
    Ok (AddData
          (ArraySource
             {| transpose_input_array := Some true;
                scalar_data := None;
                vector_data := Some (ones [2; 2; 2; 3]);
                origin := [0; 0; 0]%Qc;
                spacing := [scalar 1%Qc; scalar 1%Qc; scalar 1%Qc] |})
          (VStr "VectorField")).
Proof. by_evaluation. Qed.

(** C5: [vectorscatter] is documented to take the scalars under the keyword
    [scalars], but pops [scalar]: called with [scalars=s] it builds the glyph
    data with no scalars at all. *)
Theorem vectorscatter_scalars_keyword_lost :
  let u := ones [2] in
  let s := NdArray [2] [Q2Qc 7; Q2Qc 9] in
  vectorscatter [VArr u; VArr u; VArr u; VArr u; VArr u; VArr u]
      {[ "scalars" := VArr s ]} =
    Ok (AddData (GlyphData (ones [2; 3]) (VArr (ones [2; 3])) VNone)
          (VStr "VectorScatter")).
Proof. by_evaluation. Qed.

(** What [vectorscatter] passes as scalars is the keyword [scalar]. *)
Lemma vectorscatter_scalars args kwargs r :
  vectorscatter args kwargs = Ok r →
  ∃ points vectors,
    reg_source r = GlyphData points vectors (default VNone (kwargs !! "scalar")).
Proof.
  unfold vectorscatter, pop. intros H. inv_Ok H. subst r. simpl. eauto.
Qed.

(** ** The 2D array builder on an array alone *)

Lemma Qc_of_Z_opp (n : Z) : Qc_of_Z (- n) = (- Qc_of_Z n)%Qc.
Proof. apply Qc_is_canon. simpl. rewrite Qred_correct. reflexivity. Qed.

(** C8: a call with only an nx-by-ny array builds an array source with origin
    (-nx/2, ny/2, 0) and spacing (1, 1, 1); for a 4-by-3 array the origin is
    (-2, 3/2, 0). *)
Theorem array2dsource_index_centered :
  (∀ (nx ny : nat) (d : list Qc) (kwargs : gmap string value),
     let s := NdArray [nx; ny] d in
     array2dsource [VArr s] kwargs =
       Ok (AddData
             (ArraySource
                {| transpose_input_array := Some true;
                   scalar_data := Some (VArr s);
                   vector_data := None;
                   origin := [- Qc_of_nat nx / Qc_of_nat 2;
                              Qc_of_nat ny / Qc_of_nat 2; Qc_of_nat 0]%Qc;
                   spacing := [scalar (Qc_of_nat 1); scalar (Qc_of_nat 1);
                               scalar (Qc_of_nat 1)] |})
             (default (VStr "Array2DSource") (kwargs !! "name")))) ∧
  (∀ (d : list Qc) (kwargs : gmap string value),
     ∃ ds name,
       array2dsource [VArr (NdArray [4; 3] d)] kwargs = Ok (AddData (ArraySource ds) name) ∧
       origin ds = [Q2Qc (-2); Q2Qc (3 # 2); Q2Qc 0] ∧
       spacing ds = [scalar (Q2Qc 1); scalar (Q2Qc 1); scalar (Q2Qc 1)]).
Proof.
  split.
  - intros nx ny d kwargs s. unfold array2dsource, pop. simpl.
    rewrite Qc_of_Z_opp. repeat f_equal; apply Qc_is_canon; reflexivity.
  - intros d kwargs. unfold array2dsource, pop. simpl.
    eexists _, _. split; [reflexivity|]. simpl. split; by_evaluation.
Qed.

(** ** The line builder *)

Lemma Qceiling_sub_half (m : Z) : Qceiling (inject_Z m - (1 # 2))%Q = m.
Proof.
  unfold Qceiling, Qfloor. simpl.
  replace (- (m * 2 + - (1) * 1))%Z with (1 + (- m) * 2)%Z by lia.
  change (Z.pos (1 * 2)) with 2%Z.
  rewrite Z.div_add by lia. rewrite Z.div_small by lia. lia.
Qed.

(** The two index ranges of [linesource]: [np] values from 0 and from 1. *)
Lemma arange_from_0 (m : nat) :
  arange 0 (Qc_of_Z (Z.of_nat m) - Q2Qc (1 # 2)) 1 = Z.of_nat <$> seq 0 m.
Proof.
  unfold arange.
  replace (Qceiling _) with (Z.of_nat m).
  - rewrite Nat2Z.id. apply list_fmap_ext. intros _ i _. lia.
  - symmetry. etransitivity; [|apply (Qceiling_sub_half (Z.of_nat m))].
    apply Qceiling_comp. simpl. rewrite !Qred_correct. field.
Qed.

Lemma arange_from_1 (m : nat) :
  arange 1 (Qc_of_Z (Z.of_nat m) + Q2Qc (1 # 2)) 1 = (λ i, Z.of_nat (i + 1)) <$> seq 0 m.
Proof.
  unfold arange.
  replace (Qceiling _) with (Z.of_nat m).
  - rewrite Nat2Z.id. apply list_fmap_ext. intros _ i _. lia.
  - symmetry. etransitivity; [|apply (Qceiling_sub_half (Z.of_nat m))].
    apply Qceiling_comp. simpl. rewrite !Qred_correct. field.
Qed.

#[local] Arguments Nat.div : simpl never.
#[local] Arguments Nat.modulo : simpl never.

Lemma lookup_pairs {A} (f g : nat → A) (s m k : nat) :
  (i ← seq s m; [f i; g i]) !! k =
    if bool_decide (k < m * 2)
    then Some (if bool_decide (k `mod` 2 = 0) then f (s + k / 2) else g (s + k / 2))
    else None.
Proof.
  revert s k. induction m as [|m IH]; intros s k; [reflexivity|].
  simpl. destruct k as [|[|k]].
  - simpl. change (0 `mod` 2) with 0. change (0 / 2) with 0.
    by rewrite Nat.add_0_r.
  - simpl. change (1 `mod` 2) with 1. change (1 / 2) with 0.
    by rewrite Nat.add_0_r.
  - simpl. rewrite IH.
    replace (S (S k)) with (k + 1 * 2) by lia.
    rewrite Nat.Div0.mod_add, Nat.div_add by lia.
    replace (S s + k / 2) with (s + (k / 2 + 1)) by lia.
    repeat case_bool_decide; try lia; reflexivity.
Qed.

(** The three statements that fill [lines], for [m] rows, followed by the
    rest of the builder. *)
Lemma lines_filled {B} (m : nat) (rest : ndarray Z → result B) :
  (lines ← zeros2 (Z.of_nat m);
   lines ← set_column lines 0 (Z.of_nat <$> seq 0 m);
   lines ← set_column lines 1 ((λ i, Z.of_nat (i + 1)) <$> seq 0 m);
   rest lines) = rest (segments m).
Proof.
  unfold zeros2. rewrite bool_decide_eq_false_2 by lia. rewrite Nat2Z.id.
  unfold set_column; simpl.
  rewrite !length_fmap, length_seq, !bool_decide_eq_true_2 by lia. simpl.
  rewrite bool_decide_eq_true_2 by lia. simpl.
  unfold segments. f_equal. f_equal. apply list_eq. intros k.
  rewrite lookup_pairs, !list_lookup_imap.
  destruct (decide (k < m * 2)) as [Hk|Hk].
  - rewrite (bool_decide_eq_true_2 (k < m * 2)) by done.
    rewrite lookup_replicate_2 by lia. simpl.
    assert (k / 2 < m) by (apply Nat.Div0.div_lt_upper_bound; lia).
    rewrite !list_lookup_fmap, !lookup_seq_lt by lia. simpl.
    pose proof (Nat.mod_upper_bound k 2).
    repeat case_bool_decide; try lia; reflexivity.
  - rewrite (bool_decide_eq_false_2 (k < m * 2)) by done.
    rewrite (proj1 (lookup_replicate_None _ _ _)); [reflexivity | lia].
Qed.

Lemma c_ravel (x y z : arr) :
  shape x = shape y → shape y = shape z →
  c_ (ravel x) (ravel y) (ravel z) = Ok (points_of x y z).
Proof.
  intros Hxy Hyz. unfold c_, ravel; simpl.
  rewrite bool_decide_eq_true_2; [reflexivity | by rewrite Hxy, Hyz].
Qed.

Lemma process_regular_scalars_shapes args x y z s :
  process_regular_scalars args = Ok (x, y, z, s) →
  shape x = shape y ∧ shape y = shape z.
Proof.
  unfold process_regular_scalars. intros H.
  apply bind_Ok in H as ([[[vx vy] vz] vs] & _ & H).
  inv_Ok H; repeat match goal with
    | H : negb (bool_decide _) = false |- _ =>
        apply negb_false_iff, bool_decide_eq_true_1 in H
    end; simplify_eq; done.
Qed.

(** [linesource] once the arguments are normalised: no points at all fail in
    [numpy.zeros], any other number of points builds the polyline. *)
Lemma linesource_normalised args kwargs x y z s :
  length args ≠ 1 →
  process_regular_scalars args = Ok (x, y, z, s) →
  linesource args kwargs =
    match numel (shape x) with
    | 0 => Raise (ValueError "negative dimensions are not allowed")
    | S m =>
        Ok (AddData
              (PolyData {| pd_points := points_of x y z;
                           pd_lines := segments m;
                           pd_scalars := ravel <$> s |})
              (default (VStr "LineSource") (kwargs !! "name")))
    end.
Proof.
  intros Hlen Hp. unfold linesource.
  rewrite bool_decide_eq_false_2 by done. rewrite Hp; simpl.
  destruct (process_regular_scalars_shapes _ _ _ _ _ Hp) as [Hxy Hyz].
  rewrite c_ravel by done. simpl.
  change (len (points_of x y z)) with (numel (shape x)).
  destruct (numel (shape x)) as [|m] eqn:Hn.
  - reflexivity.
  - replace (Z.of_nat (S m) - 1)%Z with (Z.of_nat m) by lia.
    rewrite arange_from_0, arange_from_1, lines_filled.
    destruct s; reflexivity.
Qed.

Lemma linesource_inv args kwargs r :
  linesource args kwargs = Ok r →
  ∃ x y z s, length args ≠ 1 ∧ process_regular_scalars args = Ok (x, y, z, s).
Proof.
  unfold linesource. intros H. case_bool_decide as Hlen; [discriminate|].
  apply bind_Ok in H as ([[[x y] z] s] & Hp & _). eauto 10.
Qed.

Lemma segments_segment (m i : nat) :
  segment (segments m) i =
    if bool_decide (i < m) then Some (Z.of_nat i, Z.of_nat (i + 1)) else None.
Proof.
  unfold segment, segments; simpl. rewrite !lookup_pairs.
  replace (i * 2 + 1) with (1 + i * 2) by lia.
  rewrite Nat.Div0.mod_add, Nat.div_add, Nat.Div0.mod_mul, Nat.div_mul by lia.
  change (1 `mod` 2) with 1. change (1 / 2) with 0.
  repeat case_bool_decide; try lia; reflexivity.
Qed.

(** C6: a polyline built from n >= 2 points has the n - 1 consecutive
    segments (i, i + 1), i in [0, n - 2], and nothing else: every call that
    returns has them, and a call with coordinate arrays of one shape does
    return. *)
Theorem linesource_consecutive_segments :
  (∀ args kwargs r n,
     linesource args kwargs = Ok r →
     ∃ pd, reg_source r = PolyData pd ∧
       (len (pd_points pd) = n → 2 ≤ n →
        pd_lines pd = segments (n - 1) ∧
        shape (pd_lines pd) = [n - 1; 2] ∧
        ∀ i, segment (pd_lines pd) i =
               if bool_decide (i < n - 1)
               then Some (Z.of_nat i, Z.of_nat (i + 1)) else None)) ∧
  (∀ (x y z : arr) kwargs n,
     shape x = shape y → shape y = shape z → numel (shape x) = n → 2 ≤ n →
     ∃ pd name,
       linesource [VArr x; VArr y; VArr z] kwargs = Ok (AddData (PolyData pd) name) ∧
       len (pd_points pd) = n ∧ pd_lines pd = segments (n - 1)).
Proof.
  split.
  - intros args kwargs r n H.
    destruct (linesource_inv _ _ _ H) as (x & y & z & s & Hlen & Hp).
    rewrite (linesource_normalised _ _ _ _ _ _ Hlen Hp) in H.
    destruct (numel (shape x)) as [|m] eqn:Hn; [discriminate|].
    injection H as <-. eexists; split; [reflexivity|]. simpl.
    unfold len; simpl. rewrite Hn. intros <- _.
    replace (S m - 1) with m by lia.
    split; [reflexivity|]. split; [reflexivity|].
    intros i. apply segments_segment.
  - intros x y z kwargs n Hxy Hyz Hn Hge.
    rewrite (linesource_normalised _ _ x y z None); [|simpl; lia|].
    + rewrite Hn. destruct n as [|m]; [lia|].
      eexists _, _. split; [reflexivity|]. simpl.
      split; [exact Hn | by rewrite Nat.sub_0_r].
    + rewrite process_regular_scalars_three.
      by rewrite bool_decide_eq_true_2.
Qed.

Lemma linesource_consecutive_segments_witness :
  (∃ pd, PolyData {| pd_points := points_of five_points five_points five_points;
                     pd_lines := segments 4; pd_scalars := None |} = PolyData pd ∧
     (len (pd_points pd) = 5 → 2 ≤ 5 →
      pd_lines pd = segments (5 - 1) ∧
      shape (pd_lines pd) = [5 - 1; 2] ∧
      ∀ i, segment (pd_lines pd) i =
             if bool_decide (i < 5 - 1)
             then Some (Z.of_nat i, Z.of_nat (i + 1)) else None)) ∧
  (∃ pd name,
     linesource [VArr five_points; VArr five_points; VArr five_points] ∅ =
       Ok (AddData (PolyData pd) name) ∧
     len (pd_points pd) = 5 ∧
     pd_lines pd = NdArray [4; 2] [0; 1; 1; 2; 2; 3; 3; 4]%Z).
Proof.
  split.
  - apply (proj1 linesource_consecutive_segments
             [VArr five_points; VArr five_points; VArr five_points] ∅
             (AddData (PolyData {| pd_points := points_of five_points five_points five_points;
                                   pd_lines := segments 4; pd_scalars := None |})
                (VStr "LineSource")) 5).
    vm_compute. reflexivity.
  - apply (proj2 linesource_consecutive_segments
             five_points five_points five_points ∅ 5);
      [reflexivity | reflexivity | reflexivity | lia].
Defined.

(** C9: the scalars given to [linesource] as fourth argument are stored as
    the polyline's point scalars flattened in row-major order, element for
    element: every call that returns has stored [s.ravel()], and a call with
    arrays of one shape that hold at least one point does return. *)
Theorem linesource_scalars_stored (x y z s : arr) (kwargs : gmap string value) :
  (∀ r, linesource [VArr x; VArr y; VArr z; VArr s] kwargs = Ok r →
     ∃ pd stored,
       reg_source r = PolyData pd ∧ pd_scalars pd = Some stored ∧
       stored = ravel s ∧ shape stored = [numel (shape s)] ∧
       ∀ k, data stored !! k = data s !! k) ∧
  (shape x = shape y → shape y = shape z → shape s = shape z →
   numel (shape x) ≠ 0 →
   ∃ pd name,
     linesource [VArr x; VArr y; VArr z; VArr s] kwargs = Ok (AddData (PolyData pd) name) ∧
     pd_scalars pd = Some (ravel s)).
Proof.
  assert (∀ r, linesource [VArr x; VArr y; VArr z; VArr s] kwargs = Ok r →
               ∃ m, r = AddData
                          (PolyData {| pd_points := points_of x y z;
                                       pd_lines := segments m;
                                       pd_scalars := Some (ravel s) |})
                          (default (VStr "LineSource") (kwargs !! "name"))) as Hinv.
  { intros r H.
    destruct (linesource_inv _ _ _ H) as (x' & y' & z' & s' & Hlen & Hp).
    rewrite (linesource_normalised _ _ _ _ _ _ Hlen Hp) in H.
    rewrite process_regular_scalars_four in Hp.
    case_bool_decide; [|discriminate]. simplify_eq.
    destruct (numel (shape x')) as [|m]; [discriminate|].
    injection H as <-. eauto. }
  split.
  - intros r H. destruct (Hinv r H) as (m & ->).
    eexists _, _. repeat split.
  - intros Hxy Hyz Hsz Hn.
    rewrite (linesource_normalised _ _ x y z (Some s)); [|simpl; lia|].
    + destruct (numel (shape x)) as [|m]; [done|].
      eexists _, _. split; reflexivity.
    + rewrite process_regular_scalars_four. by rewrite bool_decide_eq_true_2.
Qed.

Lemma linesource_scalars_stored_witness :
  (∃ pd stored,
     PolyData {| pd_points := points_of five_points five_points five_points;
                 pd_lines := segments 4;
                 pd_scalars := Some (ravel five_scalars) |} = PolyData pd ∧
     pd_scalars pd = Some stored ∧
     stored = ravel five_scalars ∧ shape stored = [numel (shape five_scalars)] ∧
     ∀ k, data stored !! k = data five_scalars !! k) ∧
  (∃ pd name,
     linesource [VArr five_points; VArr five_points; VArr five_points;
                 VArr five_scalars] ∅ = Ok (AddData (PolyData pd) name) ∧
     pd_scalars pd = Some (ravel five_scalars)).
Proof.
  split.
  - apply (proj1 (linesource_scalars_stored
                    five_points five_points five_points five_scalars ∅)
             (AddData
                (PolyData {| pd_points := points_of five_points five_points five_points;
                             pd_lines := segments 4;
                             pd_scalars := Some (ravel five_scalars) |})
                (VStr "LineSource"))).
    vm_compute. reflexivity.
  - apply (proj2 (linesource_scalars_stored
                    five_points five_points five_points five_scalars ∅));
      [reflexivity | reflexivity | reflexivity | vm_compute; lia].
Defined.

(** C4, as the code has it: the guard of [linesource] is on the number of
    positional arguments, not on the number of points.  A call with one
    positional argument raises the invalid-argument error; coordinate arrays
    that hold exactly one point build a polyline without segments; coordinate
    arrays that hold no point fail when [lines] is allocated. *)
Theorem linesource_guard_is_arity :
  (∀ v kwargs,
     linesource [v] kwargs = Raise (ValueError "wrong number of arguments")) ∧
  (∀ (x y z : arr) kwargs,
     shape x = shape y → shape y = shape z → numel (shape x) = 1 →
     linesource [VArr x; VArr y; VArr z] kwargs =
       Ok (AddData
             (PolyData {| pd_points := points_of x y z;
                          pd_lines := NdArray [0; 2] [];
                          pd_scalars := None |})
             (default (VStr "LineSource") (kwargs !! "name")))) ∧
  (∀ (x y z : arr) kwargs,
     shape x = shape y → shape y = shape z → numel (shape x) = 0 →
     linesource [VArr x; VArr y; VArr z] kwargs =
       Raise (ValueError "negative dimensions are not allowed")).
Proof.
  split; [reflexivity|].
  split; intros x y z kwargs Hxy Hyz Hn;
    (rewrite (linesource_normalised _ _ x y z None);
     [ by rewrite Hn
     | simpl; lia
     | rewrite process_regular_scalars_three; by rewrite bool_decide_eq_true_2 ]).
Qed.

Lemma linesource_guard_is_arity_witness :
  linesource [VArr one_point; VArr one_point; VArr one_point] ∅ =
    Ok (AddData
          (PolyData {| pd_points := points_of one_point one_point one_point;
                       pd_lines := NdArray [0; 2] [];
                       pd_scalars := None |})
          (VStr "LineSource")) ∧
  linesource [VArr no_point; VArr no_point; VArr no_point] ∅ =
    Raise (ValueError "negative dimensions are not allowed").
Proof.
  split.
  - exact (proj1 (proj2 linesource_guard_is_arity) one_point one_point one_point ∅
             eq_refl eq_refl eq_refl).
  - apply (proj2 (proj2 linesource_guard_is_arity) no_point no_point no_point ∅);
      reflexivity.
Defined.

(** Against C4 as stated: with coordinate arrays of exactly one point no
    error is raised, and a polyline (one point, no segment) is constructed. *)
Lemma linesource_single_point_builds :
  linesource [VArr one_point; VArr one_point; VArr one_point] ∅ =
    Ok (AddData
          (PolyData {| pd_points := NdArray [1; 3] [Q2Qc 0; Q2Qc 0; Q2Qc 0];
                       pd_lines := NdArray [0; 2] [];
                       pd_scalars := None |})
          (VStr "LineSource")) ∧
  ¬ ∃ e, linesource [VArr one_point; VArr one_point; VArr one_point] ∅ = Raise e.
Proof.
  assert (linesource [VArr one_point; VArr one_point; VArr one_point] ∅ =
    Ok (AddData
          (PolyData {| pd_points := NdArray [1; 3] [Q2Qc 0; Q2Qc 0; Q2Qc 0];
                       pd_lines := NdArray [0; 2] [];
                       pd_scalars := None |})
          (VStr "LineSource"))) as H by (vm_compute; reflexivity).
  split; [exact H|]. intros [e He]. rewrite H in He. discriminate.
Qed.

(** ** The 2D array builder on a coordinate grid *)

Lemma bind_option_list {A} (f : nat → option A) (g : nat → A) (l : list nat) :
  (∀ k, k ∈ l → f k = Some (g k)) →
  (k ← l; option_list (f k)) = g <$> l.
Proof.
  induction l as [|k l IH]; intros H; [reflexivity|].
  simpl. rewrite (H k) by set_solver. simpl. f_equal.
  apply IH. intros k' Hk'. apply H. set_solver.
Qed.

(** The transpose of a 2-D array, element by element: [s.T[j, i] = s[i, j]]. *)
Lemma transpose_lookup (s : arr) (nx ny i j : nat) :
  shape s = [nx; ny] → wf s → i < nx → j < ny →
  data (transpose s) !! (j * nx + i) = data s !! (i * ny + j) ∧
  is_Some (data s !! (i * ny + j)).
Proof.
  intros Hsh Hwf Hi Hj. unfold wf in Hwf. rewrite Hsh in Hwf. simpl in Hwf.
  assert (∀ a b, a < nx → b < ny → a * ny + b < length (data s)) as Hin.
  { intros a b Ha Hb. rewrite Hwf. nia. }
  unfold transpose. rewrite Hsh. simpl.
  rewrite (bind_option_list _
             (λ k, default (Q2Qc 0) (data s !! ((k `mod` nx) * ny + (k / nx) `mod` ny)))).
  - rewrite list_lookup_fmap, lookup_seq_lt by nia. simpl.
    replace (j * nx + i) with (i + j * nx) by lia.
    rewrite Nat.Div0.mod_add, Nat.div_add by lia.
    rewrite (Nat.mod_small i nx), (Nat.div_small i nx) by lia. simpl.
    rewrite (Nat.mod_small j ny) by lia.
    destruct (lookup_lt_is_Some_2 (data s) (i * ny + j) (Hin i j Hi Hj)) as [q Hq].
    rewrite Hq. split; [reflexivity | eauto].
  - intros k Hk. apply elem_of_seq in Hk.
    assert (k `mod` nx < nx) by (apply Nat.mod_upper_bound; lia).
    assert ((k / nx) `mod` ny < ny) by (apply Nat.mod_upper_bound; lia).
    destruct (lookup_lt_is_Some_2 (data s) _
                (Hin (k `mod` nx) ((k / nx) `mod` ny) ltac:(done) ltac:(done)))
      as [q Hq].
    unfold ravel_index; simpl. rewrite Hq. reflexivity.
Qed.

(** C10: on a coordinate grid (three positional arguments) the stored point
    scalars are [s.T.ravel()], the scalar type is "unsigned_char" and there is
    one scalar component.  Every call that returns has them; a call with
    three non-empty 2-D arrays of one shape returns; and entry [j * nx + i]
    of the stored scalars is entry [i * ny + j] of [s.ravel()]. *)
Theorem array2dsource_grid_scalars :
  (∀ vx vy vs kwargs r,
     array2dsource [vx; vy; vs] kwargs = Ok r →
     ∃ x y s sp,
       process_regular_2d_scalars [vx; vy; vs] = Ok (x, y, s) ∧
       reg_source r = StructuredPoints sp ∧
       sp_scalars sp = Some (ravel (transpose s)) ∧
       scalar_type sp = Some "unsigned_char" ∧
       number_of_scalar_components sp = Some 1%Z) ∧
  (∀ (x y s : arr) kwargs nx ny,
     shape x = [nx; ny] → shape y = [nx; ny] → shape s = [nx; ny] →
     data x ≠ [] → data y ≠ [] →
     ∃ sp name,
       array2dsource [VArr x; VArr y; VArr s] kwargs =
         Ok (AddData (StructuredPoints sp) name) ∧
       sp_scalars sp = Some (ravel (transpose s)) ∧
       scalar_type sp = Some "unsigned_char" ∧
       number_of_scalar_components sp = Some 1%Z) ∧
  (∀ (s : arr) nx ny i j,
     shape s = [nx; ny] → wf s → i < nx → j < ny →
     data (ravel (transpose s)) !! (j * nx + i) = data (ravel s) !! (i * ny + j) ∧
     is_Some (data (ravel s) !! (i * ny + j))).
Proof.
  split; [|split].
  - intros vx vy vs kwargs r H. unfold array2dsource in H.
    apply bind_Ok in H as (ds & Hds & H).
    apply bind_Ok in Hds as ([[x y] s] & Hp & Hds).
    destruct (shape s) as [|nx [|ny [|]]] eqn:Hsh; try discriminate.
    inv_Ok Hds. unfold pop in H. injection H as <-. subst ds.
    exists x, y, s. eexists. split; [exact Hp|]. simpl. repeat split.
  - intros x y s kwargs nx ny Hx Hy Hs Hdx Hdy.
    unfold array2dsource.
    rewrite process_regular_2d_scalars_three.
    rewrite bool_decide_eq_true_2 by (by rewrite Hx, Hy, Hs). simpl.
    rewrite Hs. unfold amin, amax.
    destruct (data x) as [|qx lx]; [done|]. destruct (data y) as [|qy ly]; [done|].
    simpl. unfold pop. eexists _, _. split; [reflexivity|]. simpl. repeat split.
  - intros s nx ny i j Hsh Hwf Hi Hj.
    change (data (ravel (transpose s))) with (data (transpose s)).
    change (data (ravel s)) with (data s).
    by apply transpose_lookup.
Qed.

Lemma array2dsource_grid_evaluated :
  array2dsource [VArr grid_x; VArr grid_y; VArr grid_s] ∅ = Ok grid_registered.
Proof. by_evaluation. Qed.

Lemma array2dsource_grid_scalars_witness :
  (∃ x y s sp,
     process_regular_2d_scalars [VArr grid_x; VArr grid_y; VArr grid_s] = Ok (x, y, s) ∧
     reg_source grid_registered = StructuredPoints sp ∧
     sp_scalars sp = Some (ravel (transpose s)) ∧
     scalar_type sp = Some "unsigned_char" ∧
     number_of_scalar_components sp = Some 1%Z) ∧
  (∃ sp name,
     array2dsource [VArr grid_x; VArr grid_y; VArr grid_s] ∅ =
       Ok (AddData (StructuredPoints sp) name) ∧
     sp_scalars sp = Some (ravel (transpose grid_s)) ∧
     scalar_type sp = Some "unsigned_char" ∧
     number_of_scalar_components sp = Some 1%Z) ∧
  (data (ravel (transpose grid_s)) !! (2 * 2 + 1) = data (ravel grid_s) !! (1 * 3 + 2) ∧
   is_Some (data (ravel grid_s) !! (1 * 3 + 2))).
Proof.
  split; [|split].
  - apply (proj1 array2dsource_grid_scalars
             (VArr grid_x) (VArr grid_y) (VArr grid_s) ∅ grid_registered).
    by_evaluation.
  - apply (proj1 (proj2 array2dsource_grid_scalars) grid_x grid_y grid_s ∅ 2 3);
      [reflexivity | reflexivity | reflexivity | discriminate | discriminate].
  - apply (proj2 (proj2 array2dsource_grid_scalars) grid_s 2 3 1 2);
      [reflexivity | reflexivity | lia | lia].
Defined.

(** ** The regular-field builders *)

Lemma take_1_drop {A} (l : list A) (n : nat) (x : A) :
  l !! n = Some x → take 1 (drop n l) = [x].
Proof.
  intros H. rewrite <- (Nat.add_0_r n), <- lookup_drop in H.
  destruct (drop n l); [discriminate|]. by injection H as ->.
Qed.

Lemma offset3_lt (n0 n1 n2 i j k : nat) :
  i < n0 → j < n1 → k < n2 → (i * n1 + j) * n2 + k < n0 * (n1 * (n2 * 1)).
Proof.
  intros Hi Hj Hk.
  assert (i * n1 + j + 1 ≤ n0 * n1) as H1 by nia.
  assert ((i * n1 + j + 1) * n2 ≤ n0 * n1 * n2) as H2
    by (apply Nat.mul_le_mono_r; exact H1).
  nia.
Qed.

Lemma getitem3_scalar (a : arr) (n0 n1 n2 i j k : nat) :
  shape a = [n0; n1; n2] → wf a → i < n0 → j < n1 → k < n2 →
  getitem3 a i j k = Ok (scalar (item3 a i j k)).
Proof.
  intros Hsh Hwf Hi Hj Hk. unfold getitem3, item3, wf in *.
  rewrite Hsh in *. simpl in Hwf.
  rewrite bool_decide_eq_true_2 by done. simpl.
  assert ((i * n1 + j) * n2 + k < length (data a)) as Hlt
    by (rewrite Hwf; by apply offset3_lt).
  destruct (lookup_lt_is_Some_2 _ _ Hlt) as [q Hq].
  unfold ravel_index; simpl. rewrite Hq. simpl.
  rewrite Nat.mul_1_r. by rewrite (take_1_drop _ _ q).
Qed.

Lemma Qc_min_le_l (p q : Qc) : (Qc_min p q ≤ p)%Qc.
Proof.
  unfold Qc_min. case_decide; [apply Qcle_refl|].
  apply Qclt_le_weak. by apply Qcnot_le_lt.
Qed.

Lemma Qc_min_le_r (p q : Qc) : (Qc_min p q ≤ q)%Qc.
Proof. unfold Qc_min. case_decide; [done | apply Qcle_refl]. Qed.

Lemma foldl_Qc_min (l : list Qc) (q : Qc) :
  let m := foldl Qc_min q l in
  m ∈ q :: l ∧ (m ≤ q)%Qc ∧ ∀ p, p ∈ l → (m ≤ p)%Qc.
Proof.
  revert q. induction l as [|p l IH]; intros q; simpl.
  - split; [set_solver|]. split; [apply Qcle_refl | set_solver].
  - destruct (IH (Qc_min q p)) as (Hin & Hle & Hall). split; [|split].
    + apply elem_of_cons in Hin as [->|Hin].
      * unfold Qc_min. case_decide; [apply list_elem_of_here|].
        apply list_elem_of_further, list_elem_of_here.
      * by do 2 apply list_elem_of_further.
    + eapply Qcle_trans; [exact Hle | apply Qc_min_le_l].
    + intros p' [->|Hp']%elem_of_cons; [|by apply Hall].
      eapply Qcle_trans; [exact Hle | apply Qc_min_le_r].
Qed.

Lemma amin_is_min (a : arr) (m : Qc) : amin a = Ok m → is_min a m.
Proof.
  unfold amin, is_min. destruct (data a) as [|q l]; [discriminate|].
  intros [= <-]. destruct (foldl_Qc_min l q) as (Hin & Hle & Hall).
  split; [exact Hin|]. intros p [->|Hp]%elem_of_cons; [exact Hle | by apply Hall].
Qed.

Lemma is_min_unique (a : arr) (m m' : Qc) : is_min a m → is_min a m' → m = m'.
Proof.
  intros [Hin Hle] [Hin' Hle']. apply Qcle_antisym; [by apply Hle | by apply Hle'].
Qed.

Lemma amin_nonempty (a : arr) : data a ≠ [] → ∃ m, amin a = Ok m.
Proof. unfold amin. destruct (data a); [done | eauto]. Qed.

Lemma process_regular_vectors_shapes args x y z u v w :
  process_regular_vectors args = Ok (x, y, z, u, v, w) →
  shape y = shape x ∧ shape z = shape x ∧ shape u = shape x ∧
  shape v = shape x ∧ shape w = shape x.
Proof.
  unfold process_regular_vectors. intros H.
  apply bind_Ok in H as ([[[[[vx vy] vz] vu] vv] vw] & _ & H).
  inv_Ok H; repeat match goal with
    | H : negb (bool_decide _) = false |- _ =>
        apply negb_false_iff, bool_decide_eq_true_1 in H
    end; simplify_eq; repeat split; congruence.
Qed.

(** [vectorfield] on a normalised grid of three axes with at least two
    samples along each. *)
Lemma vectorfield_regular args kwargs (x y z u v w : arr) (nx ny nz : nat) :
  process_regular_vectors args = Ok (x, y, z, u, v, w) →
  shape x = [nx; ny; nz] → wf x → wf y → wf z →
  2 ≤ nx → 2 ≤ ny → 2 ≤ nz →
  ∃ ds xmin ymin zmin,
    vectorfield args kwargs = Ok (AddData (ArraySource ds) (VStr "VectorField")) ∧
    spacing ds = deltas x y z ∧
    origin ds = [xmin; ymin; zmin] ∧
    is_min x xmin ∧ is_min y ymin ∧ is_min z zmin.
Proof.
  intros Hp Hx Hwx Hwy Hwz Hnx Hny Hnz.
  destruct (process_regular_vectors_shapes _ _ _ _ _ _ _ Hp)
    as (Hy & Hz & Hu & Hv & Hw).
  rewrite Hx in Hy, Hz, Hu.
  assert (∀ a : arr, shape a = [nx; ny; nz] → wf a → data a ≠ []) as Hne.
  { intros a Ha Hwa Hnil. unfold wf in Hwa. rewrite Ha, Hnil in Hwa.
    simpl in Hwa. nia. }
  destruct (amin_nonempty x (Hne x Hx Hwx)) as [xmin Hxmin].
  destruct (amin_nonempty y (Hne y Hy Hwy)) as [ymin Hymin].
  destruct (amin_nonempty z (Hne z Hz Hwz)) as [zmin Hzmin].
  unfold vectorfield. rewrite Hp. simpl.
  rewrite !(getitem3_scalar x nx ny nz), !(getitem3_scalar y nx ny nz),
    !(getitem3_scalar z nx ny nz) by (done || lia). simpl.
  unfold concatenate_axis3, newaxis. rewrite Hu. simpl.
  rewrite Hxmin, Hymin, Hzmin. simpl.
  eexists _, xmin, ymin, zmin. split.
  - unfold pop, _add_data. simpl. f_equal. f_equal.
    destruct (is_None _); simpl.
    + rewrite lookup_empty. reflexivity.
    + rewrite lookup_insert_ne by done. rewrite lookup_empty. reflexivity.
  - simpl. split; [reflexivity|]. split; [reflexivity|].
    split; [|split]; by apply amin_is_min.
Qed.

Lemma head_item3 (a : arr) (nx ny nz : nat) :
  shape a = [nx; ny; nz] → wf a → 2 ≤ nx → 2 ≤ ny → 2 ≤ nz →
  ∃ l, data a = item3 a 0 0 0 :: l.
Proof.
  intros Ha Hwa Hnx Hny Hnz. unfold item3, wf in *. rewrite Ha in *.
  simpl in Hwa. unfold ravel_index; simpl.
  destruct (data a) as [|q l]; [simpl in Hwa; nia | eauto].
Qed.

(** [scalarfield] on a normalised grid of three axes with at least two
    samples along each: the origin is the first grid point. *)
Lemma scalarfield_regular args kwargs (x y z : arr) (s : option arr) (nx ny nz : nat) :
  process_regular_scalars args = Ok (x, y, z, s) →
  shape x = [nx; ny; nz] → wf x → wf y → wf z →
  2 ≤ nx → 2 ≤ ny → 2 ≤ nz →
  ∃ ds,
    scalarfield args kwargs =
      Ok (AddData (ArraySource ds) (default (VStr "ScalarField") (kwargs !! "name"))) ∧
    spacing ds = deltas x y z ∧
    origin ds = [item3 x 0 0 0; item3 y 0 0 0; item3 z 0 0 0].
Proof.
  intros Hp Hx Hwx Hwy Hwz Hnx Hny Hnz.
  destruct (process_regular_scalars_shapes _ _ _ _ _ Hp) as [Hxy Hyz].
  assert (shape y = [nx; ny; nz]) as Hy by congruence.
  assert (shape z = [nx; ny; nz]) as Hz by congruence.
  destruct (head_item3 x nx ny nz) as [lx Hdx]; try done.
  destruct (head_item3 y nx ny nz) as [ly Hdy]; try done.
  destruct (head_item3 z nx ny nz) as [lz Hdz]; try done.
  unfold scalarfield. rewrite Hp. simpl.
  rewrite c_ravel by done. simpl.
  rewrite !(getitem3_scalar x nx ny nz), !(getitem3_scalar y nx ny nz),
    !(getitem3_scalar z nx ny nz) by (done || lia). simpl.
  unfold getitem2, points_of. simpl. rewrite Hx. simpl.
  rewrite !bool_decide_eq_true_2 by (split; nia).
  rewrite Hdx, Hdy, Hdz. simpl.
  eexists. split; [reflexivity|]. split; reflexivity.
Qed.

(** *** Offsets and index values *)

Lemma offset3_div_mod (ny nz i j k : nat) :
  j < ny → k < nz →
  let n := (i * ny + j) * nz + k in
  n / (ny * nz) = i ∧ (n / nz) `mod` ny = j ∧ n `mod` nz = k.
Proof.
  intros Hj Hk n. subst n.
  assert (((i * ny + j) * nz + k) / nz = i * ny + j) as Hdiv.
  { rewrite Nat.div_add_l by lia. rewrite Nat.div_small by lia. lia. }
  split; [|split].
  - rewrite (Nat.mul_comm ny nz), <- Nat.Div0.div_div, Hdiv.
    rewrite Nat.div_add_l by lia. rewrite Nat.div_small by lia. lia.
  - rewrite Hdiv. rewrite Nat.add_comm, Nat.Div0.mod_add. by apply Nat.mod_small.
  - rewrite Nat.add_comm, Nat.Div0.mod_add. by apply Nat.mod_small.
Qed.

Lemma Qc_of_nat_0 : Qc_of_nat 0 = Q2Qc 0.
Proof. apply Qc_is_canon. reflexivity. Qed.

Lemma Qc_of_nat_1 : Qc_of_nat 1 = Q2Qc 1.
Proof. apply Qc_is_canon. reflexivity. Qed.

Lemma Qc_of_nat_nonneg (n : nat) : (Q2Qc 0 ≤ Qc_of_nat n)%Qc.
Proof.
  rewrite <- Qc_of_nat_0. unfold Qc_of_nat.
  apply (proj1 (Z2Qc_inj_le (Z.of_nat 0) (Z.of_nat n))). lia.
Qed.

(** C1: both regular-field builders take the deltas x[1,0,0]-x[0,0,0],
    y[0,1,0]-y[0,0,0], z[0,0,1]-z[0,0,0] as spacing, but only [vectorfield]
    sets the origin to the least coordinate of each axis; [scalarfield] sets
    it to the first grid point.  On the grid
    [mgrid[1:0:-0.5, 0:1:0.5, 0:1:0.5]], whose least x is 0.5 and not 1,
    [scalarfield(x, y, z, s)] registers the origin (1, 0, 0) where
    [vectorfield(x, y, z, u, v, w)] registers (0.5, 0, 0); the spacing is
    (-0.5, 0.5, 0.5) for both. *)
Theorem scalarfield_origin_not_minimum :
  scalarfield [VArr descending_x; VArr ascending_y; VArr ascending_z;
               VArr cube] ∅ =
    Ok (AddData
          (ArraySource
             {| transpose_input_array := None;
                scalar_data := Some (VArr cube);
                vector_data := None;
                origin := [Q2Qc 1; Q2Qc 0; Q2Qc 0];
                spacing := [scalar (Q2Qc (-1 # 2)); scalar half; scalar half] |})
          (VStr "ScalarField")) ∧
  vectorfield [VArr descending_x; VArr ascending_y; VArr ascending_z;
               VArr cube; VArr cube; VArr cube] ∅ =
    Ok (AddData
          (ArraySource
             {| transpose_input_array := Some true;
                scalar_data := None;
                vector_data :=
                  Some (NdArray [2; 2; 2; 3]
                          (interleave3 (data cube) (data cube) (data cube)));
                origin := [half; Q2Qc 0; Q2Qc 0];
                spacing := [scalar (Q2Qc (-1 # 2)); scalar half; scalar half] |})
          (VStr "VectorField")) ∧
  is_min descending_x half ∧ is_min ascending_y (Q2Qc 0) ∧
  is_min ascending_z (Q2Qc 0) ∧ ¬ is_min descending_x (Q2Qc 1).
Proof.
  assert (is_min descending_x half) as Hmin
    by (apply amin_is_min; by_evaluation).
  split; [by_evaluation|]. split; [by_evaluation|].
  split; [exact Hmin|]. split; [|split].
  - apply amin_is_min. by_evaluation.
  - apply amin_is_min. by_evaluation.
  - intros Hone. pose proof (is_min_unique _ _ _ Hmin Hone) as Heq.
    revert Heq. compute_done.
Qed.

(** ** The numpy model on small inputs *)

Example indices3_2_2_2 :
  indices3 2 2 2 =
    (NdArray [2; 2; 2] (qs [0; 0; 0; 0; 1; 1; 1; 1]),
     NdArray [2; 2; 2] (qs [0; 0; 1; 1; 0; 0; 1; 1]),
     NdArray [2; 2; 2] (qs [0; 1; 0; 1; 0; 1; 0; 1])).
Proof. by_evaluation. Qed.

Example indices2_2_3 :
  indices2 2 3 =
    (NdArray [2; 3] (qs [0; 0; 0; 1; 1; 1]),
     NdArray [2; 3] (qs [0; 1; 2; 0; 1; 2])).
Proof. by_evaluation. Qed.

Example transpose_2_3 :
  transpose (NdArray [2; 3] (qs [1; 2; 3; 4; 5; 6])) =
    NdArray [3; 2] (qs [1; 4; 2; 5; 3; 6]).
Proof. by_evaluation. Qed.

Example linspace_0_1_5 :
  data (linspace (Q2Qc 0) (Q2Qc 1) 5) =
    [Q2Qc 0; Q2Qc (1 # 4); Q2Qc (1 # 2); Q2Qc (3 # 4); Q2Qc 1].
Proof. by_evaluation. Qed.

Example concatenate_vectors :
  concatenate_axis3 (newaxis (NdArray [1; 1; 2] (qs [1; 2])))
                    (newaxis (NdArray [1; 1; 2] (qs [3; 4])))
                    (newaxis (NdArray [1; 1; 2] (qs [5; 6]))) =
    Ok (NdArray [1; 1; 2; 3] (qs [1; 3; 5; 2; 4; 6])).
Proof. by_evaluation. Qed.

Example c_columns :
  c_ (NdArray [2] (qs [1; 2])) (NdArray [2] (qs [3; 4])) (NdArray [2] (qs [5; 6])) =
    Ok (NdArray [2; 3] (qs [1; 3; 5; 2; 4; 6])).
Proof. by_evaluation. Qed.

Example unpack3_array :
  unpack3 (OArr (NdArray [3; 2] (qs [1; 2; 3; 4; 5; 6]))) =
    Ok (OArr (NdArray [2] (qs [1; 2])), OArr (NdArray [2] (qs [3; 4])),
        OArr (NdArray [2] (qs [5; 6]))).
Proof. by_evaluation. Qed.

Example arange_lines_4 :
  arange 0 (Qc_of_Z 4 - half) 1 = [0; 1; 2; 3]%Z ∧
  arange 1 (Qc_of_Z 4 + half) 1 = [1; 2; 3; 4]%Z ∧
  arange 0 (Qc_of_Z 0 - half) 1 = [].
Proof. repeat split; vm_compute; reflexivity. Qed.

Example segments_4 : segments 4 = NdArray [4; 2] [0; 1; 1; 2; 2; 3; 3; 4]%Z.
Proof. reflexivity. Qed.

(** A grid with a single sample along the first axis has no x[1, 0, 0]. *)
Example vectorfield_single_sample :
  let u := ones [1; 2; 2] in
  vectorfield [VArr u; VArr u; VArr u] ∅ = Raise IndexError.
Proof. vm_compute. reflexivity. Qed.

(** The name and the scalars reach the collaborators where the builder reads
    the keyword the caller used. *)
Example vectorscatter_scalar_keyword :
  let u := ones [2] in
  vectorscatter [VArr u; VArr u; VArr u; VArr u; VArr u; VArr u]
      {[ "scalar" := VArr (ones [2]); "name" := VStr "wind" ]} =
    Ok (AddData (GlyphData (ones [2; 3]) (VArr (ones [2; 3])) (VArr (ones [2])))
          (VStr "wind")).
Proof. by_evaluation. Qed.

(** * Further properties of the module *)

(** ** Arity of the normalisers *)

(** X1: [process_regular_vectors] takes 3, 4 or 6 positional arguments; any
    other number raises the invalid-argument error, whatever is passed. *)
Theorem process_regular_vectors_arity (args : list value) :
  length args ≠ 3 → length args ≠ 4 → length args ≠ 6 →
  process_regular_vectors args = Raise (ValueError "wrong number of arguments").
Proof.
  intros H3 H4 H6.
  destruct args as [|a [|b [|c [|d [|e [|f [|g l]]]]]]]; simpl in *;
    try reflexivity; lia.
Qed.

Lemma process_regular_vectors_arity_witness :
  process_regular_vectors [VArr cube; VArr cube] =
    Raise (ValueError "wrong number of arguments").
Proof.
  apply (process_regular_vectors_arity [VArr cube; VArr cube]); simpl; lia.
Defined.

(** X2: [process_regular_scalars] takes 1, 3 or 4 positional arguments. *)
Theorem process_regular_scalars_arity (args : list value) :
  length args ≠ 1 → length args ≠ 3 → length args ≠ 4 →
  process_regular_scalars args = Raise (ValueError "wrong number of arguments").
Proof.
  intros H1 H3 H4.
  destruct args as [|a [|b [|c [|d [|e l]]]]]; simpl in *;
    try reflexivity; lia.
Qed.

Lemma process_regular_scalars_arity_witness :
  process_regular_scalars [VArr cube; VArr cube] =
    Raise (ValueError "wrong number of arguments").
Proof.
  apply (process_regular_scalars_arity [VArr cube; VArr cube]); simpl; lia.
Defined.

(** X3: [process_regular_2d_scalars] takes 1 or 3 positional arguments. *)
Theorem process_regular_2d_scalars_arity (args : list value) :
  length args ≠ 1 → length args ≠ 3 →
  process_regular_2d_scalars args = Raise (ValueError "wrong number of arguments").
Proof.
  intros H1 H3.
  destruct args as [|a [|b [|c [|d l]]]]; simpl in *; try reflexivity; lia.
Qed.

Lemma process_regular_2d_scalars_arity_witness :
  process_regular_2d_scalars [VArr grid_x; VArr grid_y] =
    Raise (ValueError "wrong number of arguments").
Proof.
  apply (process_regular_2d_scalars_arity [VArr grid_x; VArr grid_y]); simpl; lia.
Defined.

(** ** What the normalisers return *)

(** X4: whatever the signature, the six arrays [process_regular_vectors] returns
    have one shape. *)
Theorem process_regular_vectors_one_shape args (x y z u v w : arr) :
  process_regular_vectors args = Ok (x, y, z, u, v, w) →
  ∀ a b, a ∈ [x; y; z; u; v; w] → b ∈ [x; y; z; u; v; w] → shape a = shape b.
Proof.
  intros H a b Ha Hb.
  destruct (process_regular_vectors_shapes _ _ _ _ _ _ _ H)
    as (Hy & Hz & Hu & Hv & Hw).
  assert (∀ c, c ∈ [x; y; z; u; v; w] → shape c = shape x) as Hall.
  { intros c Hc. rewrite !elem_of_cons, elem_of_nil in Hc.
    intuition (subst; congruence). }
  by rewrite (Hall a Ha), (Hall b Hb).
Qed.

Lemma process_regular_vectors_one_shape_witness :
  shape cube = shape (ones [2; 2; 2]).
Proof.
  apply (process_regular_vectors_one_shape
           [VArr cube; VArr cube; VArr cube; VArr cube; VArr cube;
            VArr (ones [2; 2; 2])]
           cube cube cube cube cube (ones [2; 2; 2]) eq_refl).
  - apply list_elem_of_here.
  - do 5 apply list_elem_of_further. apply list_elem_of_here.
Defined.

(** X5: whatever the signature, the coordinates [process_regular_scalars] and
    [process_regular_2d_scalars] return have one shape, and the scalars, when
    there are any, have that shape too. *)
Theorem process_regular_scalars_one_shape :
  (∀ args (x y z : arr) (s : option arr),
     process_regular_scalars args = Ok (x, y, z, s) →
     shape x = shape y ∧ shape y = shape z ∧
     ∀ a, s = Some a → shape a = shape z) ∧
  (∀ args (x y s : arr),
     process_regular_2d_scalars args = Ok (x, y, s) →
     shape x = shape y ∧ shape s = shape y).
Proof.
  split.
  - intros args x y z s H. unfold process_regular_scalars in H.
    apply bind_Ok in H as ([[[vx vy] vz] vs] & _ & H).
    inv_Ok H; repeat match goal with
      | H : negb (bool_decide _) = false |- _ =>
          apply negb_false_iff, bool_decide_eq_true_1 in H
      end; simplify_eq; repeat split; try done; intros ? [= <-]; done.
  - intros args x y s H. unfold process_regular_2d_scalars in H.
    apply bind_Ok in H as ([[vx vy] vs] & _ & H).
    inv_Ok H; repeat match goal with
      | H : negb (bool_decide _) = false |- _ =>
          apply negb_false_iff, bool_decide_eq_true_1 in H
      end; simplify_eq; done.
Qed.

Lemma process_regular_scalars_one_shape_witness :
  (shape cube = shape cube ∧ shape cube = shape cube ∧
   ∀ a, Some cube = Some a → shape a = shape cube) ∧
  (shape grid_x = shape grid_y ∧ shape grid_s = shape grid_y).
Proof.
  split.
  - apply (proj1 process_regular_scalars_one_shape
             [VArr cube; VArr cube; VArr cube; VArr cube]).
    reflexivity.
  - apply (proj2 process_regular_scalars_one_shape
             [VArr grid_x; VArr grid_y; VArr grid_s]).
    reflexivity.
Defined.

(** ** Synthesised index grids *)

Lemma indices3_getitem (a b c i j k : nat) :
  i < a → j < b → k < c →
  getitem3 (indices3 a b c).1.1 i j k = Ok (scalar (Qc_of_nat i)) ∧
  getitem3 (indices3 a b c).1.2 i j k = Ok (scalar (Qc_of_nat j)) ∧
  getitem3 (indices3 a b c).2 i j k = Ok (scalar (Qc_of_nat k)).
Proof.
  intros Hi Hj Hk.
  pose proof (offset3_lt a b c i j k Hi Hj Hk) as Hlt.
  destruct (offset3_div_mod b c i j k Hj Hk) as (H1 & H2 & H3).
  assert (∀ f : nat → nat,
            let x := NdArray [a; b; c] ((λ n, Qc_of_nat (f n)) <$> seq 0 (a * b * c)) in
            getitem3 x i j k = Ok (scalar (Qc_of_nat (f ((i * b + j) * c + k))))) as Hget.
  { intros f x. rewrite (getitem3_scalar x a b c) by
      (done || (unfold wf; simpl; rewrite length_fmap, length_seq; lia)).
    unfold item3, ravel_index; simpl.
    rewrite list_lookup_fmap, lookup_seq_lt by lia. reflexivity. }
  split; [|split].
  - rewrite <- H1 at 2. apply (Hget (λ n, n / (b * c))).
  - rewrite <- H2 at 2. apply (Hget (λ n, (n / c) `mod` b)).
  - rewrite <- H3 at 2. apply (Hget (λ n, n `mod` c)).
Qed.

(** X6: called with the three components alone, [process_regular_vectors]
    returns them with the index arrays of their shape as coordinates:
    x[i,j,k] = i, y[i,j,k] = j, z[i,j,k] = k.  A first component that does
    not have three axes fails the assertion. *)
Theorem process_regular_vectors_index_grid :
  (∀ (u v w : arr) a b c,
     shape u = [a; b; c] → shape v = [a; b; c] → shape w = [a; b; c] →
     ∃ x y z,
       process_regular_vectors [VArr u; VArr v; VArr w] = Ok (x, y, z, u, v, w) ∧
       ∀ i j k, i < a → j < b → k < c →
         getitem3 x i j k = Ok (scalar (Qc_of_nat i)) ∧
         getitem3 y i j k = Ok (scalar (Qc_of_nat j)) ∧
         getitem3 z i j k = Ok (scalar (Qc_of_nat k))) ∧
  (∀ (u : arr) (v w : value),
     length (shape u) ≠ 3 →
     process_regular_vectors [VArr u; v; w] = Raise (AssertionError "3D array required")).
Proof.
  split.
  - intros u v w a b c Hu Hv Hw.
    exists (indices3 a b c).1.1, (indices3 a b c).1.2, (indices3 a b c).2.
    split.
    + unfold process_regular_vectors. simpl. rewrite Hu. simpl.
      rewrite Hu, Hv, Hw. rewrite !bool_decide_eq_true_2 by done. reflexivity.
    + intros i j k Hi Hj Hk. by apply indices3_getitem.
  - intros u v w Hlen. unfold process_regular_vectors. simpl.
    destruct (shape u) as [|a [|b [|c [|d l]]]]; simpl in *; try reflexivity; lia.
Qed.

Lemma process_regular_vectors_index_grid_witness :
  (∃ x y z,
     process_regular_vectors [VArr cube; VArr cube; VArr cube] =
       Ok (x, y, z, cube, cube, cube) ∧
     ∀ i j k, i < 2 → j < 2 → k < 2 →
       getitem3 x i j k = Ok (scalar (Qc_of_nat i)) ∧
       getitem3 y i j k = Ok (scalar (Qc_of_nat j)) ∧
       getitem3 z i j k = Ok (scalar (Qc_of_nat k))) ∧
  process_regular_vectors [VArr five_points; VArr cube; VNone] =
    Raise (AssertionError "3D array required").
Proof.
  split.
  - apply (proj1 process_regular_vectors_index_grid cube cube cube 2 2 2);
      reflexivity.
  - apply (proj2 process_regular_vectors_index_grid five_points (VArr cube) VNone).
    simpl. lia.
Defined.

(** X7: called with the scalars alone, [process_regular_scalars] returns them
    over the index arrays of their shape; scalars that do not have three axes
    fail the assertion. *)
Theorem process_regular_scalars_index_grid :
  (∀ (s : arr) a b c,
     shape s = [a; b; c] →
     ∃ x y z,
       process_regular_scalars [VArr s] = Ok (x, y, z, Some s) ∧
       ∀ i j k, i < a → j < b → k < c →
         getitem3 x i j k = Ok (scalar (Qc_of_nat i)) ∧
         getitem3 y i j k = Ok (scalar (Qc_of_nat j)) ∧
         getitem3 z i j k = Ok (scalar (Qc_of_nat k))) ∧
  (∀ s : arr,
     length (shape s) ≠ 3 →
     process_regular_scalars [VArr s] = Raise (AssertionError "3D array required")).
Proof.
  split.
  - intros s a b c Hs.
    exists (indices3 a b c).1.1, (indices3 a b c).1.2, (indices3 a b c).2.
    split.
    + unfold process_regular_scalars. simpl. rewrite Hs. simpl.
      rewrite Hs. rewrite !bool_decide_eq_true_2 by done. reflexivity.
    + intros i j k Hi Hj Hk. by apply indices3_getitem.
  - intros s Hlen. unfold process_regular_scalars. simpl.
    destruct (shape s) as [|a [|b [|c [|d l]]]]; simpl in *; try reflexivity; lia.
Qed.

Lemma process_regular_scalars_index_grid_witness :
  (∃ x y z,
     process_regular_scalars [VArr cube] = Ok (x, y, z, Some cube) ∧
     ∀ i j k, i < 2 → j < 2 → k < 2 →
       getitem3 x i j k = Ok (scalar (Qc_of_nat i)) ∧
       getitem3 y i j k = Ok (scalar (Qc_of_nat j)) ∧
       getitem3 z i j k = Ok (scalar (Qc_of_nat k))) ∧
  process_regular_scalars [VArr grid_s] = Raise (AssertionError "3D array required").
Proof.
  split.
  - apply (proj1 process_regular_scalars_index_grid cube 2 2 2). reflexivity.
  - apply (proj2 process_regular_scalars_index_grid grid_s). simpl. lia.
Defined.

(** X8: called with a 2-D array alone, [process_regular_2d_scalars] returns it
    over the index arrays of its shape: x[i,j] = i and y[i,j] = j; an array
    that does not have two axes fails the assertion. *)
Theorem process_regular_2d_scalars_index_grid :
  (∀ (s : arr) a b,
     shape s = [a; b] →
     ∃ x y,
       process_regular_2d_scalars [VArr s] = Ok (x, y, s) ∧
       ∀ i j, i < a → j < b →
         getitem2 x i j = Ok (Qc_of_nat i) ∧ getitem2 y i j = Ok (Qc_of_nat j)) ∧
  (∀ s : arr,
     length (shape s) ≠ 2 →
     process_regular_2d_scalars [VArr s] = Raise (AssertionError "2D array required")).
Proof.
  split.
  - intros s a b Hs.
    exists (indices2 a b).1, (indices2 a b).2. split.
    + unfold process_regular_2d_scalars. simpl. rewrite Hs. simpl.
      rewrite Hs. rewrite !bool_decide_eq_true_2 by done. reflexivity.
    + intros i j Hi Hj. unfold getitem2; simpl.
      rewrite !bool_decide_eq_true_2 by done.
      assert (i * b + j < a * b) as Hlt by nia.
      rewrite !list_lookup_fmap, !lookup_seq_lt by lia. simpl.
      rewrite Nat.div_add_l, Nat.div_small by lia.
      rewrite (Nat.add_comm (i * b) j), Nat.Div0.mod_add, Nat.mod_small by lia.
      by rewrite Nat.add_0_r.
  - intros s Hlen. unfold process_regular_2d_scalars. simpl.
    destruct (shape s) as [|a [|b [|c l]]]; simpl in *; try reflexivity; lia.
Qed.

Lemma process_regular_2d_scalars_index_grid_witness :
  (∃ x y,
     process_regular_2d_scalars [VArr grid_s] = Ok (x, y, grid_s) ∧
     ∀ i j, i < 2 → j < 3 →
       getitem2 x i j = Ok (Qc_of_nat i) ∧ getitem2 y i j = Ok (Qc_of_nat j)) ∧
  process_regular_2d_scalars [VArr cube] = Raise (AssertionError "2D array required").
Proof.
  split.
  - apply (proj1 process_regular_2d_scalars_index_grid grid_s 2 3). reflexivity.
  - apply (proj2 process_regular_2d_scalars_index_grid cube). simpl. lia.
Defined.

(** ** Procedural scalars *)

(** X9: a callable fourth argument of [process_regular_scalars] is called with
    (x, y, z) before any shape is compared: what it raises is raised, the
    array it returns takes the place of the scalars, and when it returns
    [None] the scalars are absent. *)
Theorem process_regular_scalars_callable (x y z : arr) (fn : list obj → result obj) :
  let args := [VArr x; VArr y; VArr z; VCallable fn] in
  (∀ e, fn [OArr x; OArr y; OArr z] = Raise e →
     process_regular_scalars args = Raise e) ∧
  (∀ s, fn [OArr x; OArr y; OArr z] = Ok (OArr s) →
     shape x = shape y → shape y = shape z → shape s = shape z →
     process_regular_scalars args = Ok (x, y, z, Some s)) ∧
  (fn [OArr x; OArr y; OArr z] = Ok ONone →
   shape x = shape y → shape y = shape z →
   process_regular_scalars args = Ok (x, y, z, None)).
Proof.
  intros args. subst args. unfold process_regular_scalars, call. simpl.
  split; [|split].
  - intros e ->. reflexivity.
  - intros s -> Hxy Hyz Hsz. simpl.
    rewrite !bool_decide_eq_true_2 by done. reflexivity.
  - intros -> Hxy Hyz. simpl.
    rewrite !bool_decide_eq_true_2 by done. reflexivity.
Qed.

Lemma process_regular_scalars_callable_witness :
  process_regular_scalars [VArr cube; VArr cube; VArr five_points;
                           VCallable failing_field] = Raise TypeError ∧
  process_regular_scalars [VArr cube; VArr cube; VArr cube;
                           VCallable (λ _, Ok (OArr cube))] =
    Ok (cube, cube, cube, Some cube) ∧
  process_regular_scalars [VArr cube; VArr cube; VArr cube;
                           VCallable (λ _, Ok ONone)] =
    Ok (cube, cube, cube, None).
Proof.
  split; [|split].
  - apply (proj1 (process_regular_scalars_callable cube cube five_points failing_field)).
    reflexivity.
  - apply (proj1 (proj2 (process_regular_scalars_callable cube cube cube
                           (λ _, Ok (OArr cube)))));
      reflexivity.
  - apply (proj2 (proj2 (process_regular_scalars_callable cube cube cube
                           (λ _, Ok ONone))));
      reflexivity.
Defined.

(** ** Scattered data *)

Lemma interleave3_lookup {A} (a b c : list A) (i : nat) (p q r : A) :
  a !! i = Some p → b !! i = Some q → c !! i = Some r →
  interleave3 a b c !! (i * 3) = Some p ∧
  interleave3 a b c !! (i * 3 + 1) = Some q ∧
  interleave3 a b c !! (i * 3 + 2) = Some r.
Proof.
  revert b c i. induction a as [|p' a IH]; intros [|q' b] [|r' c] i;
    try (intros; discriminate).
  destruct i as [|i]; simpl.
  - intros [= ->] [= ->] [= ->]. done.
  - intros Ha Hb Hc. by apply IH.
Qed.

(** Row [i] of the points of a builder is (x, y, z) at element [i] of the
    flattened coordinates. *)
Lemma points_of_row (x y z : arr) (i : nat) :
  shape x = shape y → shape y = shape z → wf x → wf y → wf z →
  i < numel (shape x) →
  getitem2 (points_of x y z) i 0 = Ok (item1 (ravel x) i) ∧
  getitem2 (points_of x y z) i 1 = Ok (item1 (ravel y) i) ∧
  getitem2 (points_of x y z) i 2 = Ok (item1 (ravel z) i).
Proof.
  intros Hxy Hyz Hwx Hwy Hwz Hi. unfold wf in *.
  destruct (lookup_lt_is_Some_2 (data x) i) as [p Hp]; [lia|].
  destruct (lookup_lt_is_Some_2 (data y) i) as [q Hq]; [rewrite Hwy, <- Hxy; lia|].
  destruct (lookup_lt_is_Some_2 (data z) i) as [r Hr];
    [rewrite Hwz, <- Hyz, <- Hxy; lia|].
  destruct (interleave3_lookup _ _ _ i p q r Hp Hq Hr) as (H0 & H1 & H2).
  unfold getitem2, points_of, item1, ravel; simpl.
  rewrite !bool_decide_eq_true_2 by (split; lia).
  rewrite Nat.add_0_r, H0, H1, H2, Hp, Hq, Hr. done.
Qed.

(** X10: [vectorscatter] on six arrays of one shape flattens them: point [i] is
    (x, y, z) and vector [i] is (u, v, w) at element [i] in row-major order;
    the scalars are what the keyword [scalar] holds, and the object is
    registered under the caller's name. *)
Theorem vectorscatter_flattens (x y z u v w : arr) (kwargs : gmap string value) :
  (∀ a b, a ∈ [x; y; z; u; v; w] → b ∈ [x; y; z; u; v; w] → shape a = shape b) →
  (∀ a, a ∈ [x; y; z; u; v; w] → wf a) →
  ∃ points vectors,
    vectorscatter [VArr x; VArr y; VArr z; VArr u; VArr v; VArr w] kwargs =
      Ok (AddData (GlyphData points (VArr vectors) (default VNone (kwargs !! "scalar")))
            (default (VStr "VectorScatter") (kwargs !! "name"))) ∧
    shape points = [numel (shape x); 3] ∧ shape vectors = [numel (shape x); 3] ∧
    ∀ i, i < numel (shape x) →
      getitem2 points i 0 = Ok (item1 (ravel x) i) ∧
      getitem2 points i 1 = Ok (item1 (ravel y) i) ∧
      getitem2 points i 2 = Ok (item1 (ravel z) i) ∧
      getitem2 vectors i 0 = Ok (item1 (ravel u) i) ∧
      getitem2 vectors i 1 = Ok (item1 (ravel v) i) ∧
      getitem2 vectors i 2 = Ok (item1 (ravel w) i).
Proof.
  intros Hsh Hwf.
  assert (∀ a, a ∈ [x; y; z; u; v; w] → shape a = shape x) as Hx
    by (intros a Ha; apply Hsh; [done | apply list_elem_of_here]).
  assert (x ∈ [x; y; z; u; v; w] ∧ y ∈ [x; y; z; u; v; w] ∧ z ∈ [x; y; z; u; v; w] ∧
          u ∈ [x; y; z; u; v; w] ∧ v ∈ [x; y; z; u; v; w] ∧ w ∈ [x; y; z; u; v; w])
    as (Ix & Iy & Iz & Iu & Iv & Iw)
    by (rewrite !elem_of_cons; tauto).
  pose proof (Hx y Iy) as Hy. pose proof (Hx z Iz) as Hz.
  pose proof (Hx u Iu) as Hu. pose proof (Hx v Iv) as Hv.
  pose proof (Hx w Iw) as Hw.
  exists (points_of x y z), (points_of u v w). split; [|split; [|split]].
  - unfold vectorscatter. rewrite process_regular_vectors_six.
    rewrite bool_decide_eq_true_2 by (rewrite Hy, Hz, Hu, Hv, Hw; done).
    simpl. rewrite !c_ravel by congruence. simpl. unfold pop. simpl.
    by rewrite lookup_delete_ne.
  - reflexivity.
  - simpl. by rewrite Hu.
  - intros i Hi.
    pose proof (points_of_row x y z i ltac:(congruence) ltac:(congruence)
                  (Hwf x Ix) (Hwf y Iy) (Hwf z Iz) Hi) as (H0 & H1 & H2).
    rewrite <- Hu in Hi.
    pose proof (points_of_row u v w i ltac:(congruence) ltac:(congruence)
                  (Hwf u Iu) (Hwf v Iv) (Hwf w Iw) Hi) as (H3 & H4 & H5).
    done.
Qed.

Lemma vectorscatter_flattens_witness :
  ∃ points vectors,
    vectorscatter [VArr cube; VArr cube; VArr cube; VArr cube; VArr cube; VArr cube] ∅ =
      Ok (AddData
            (GlyphData points (VArr vectors)
               (default VNone ((∅ : gmap string value) !! "scalar")))
            (default (VStr "VectorScatter") ((∅ : gmap string value) !! "name"))) ∧
    shape points = [numel (shape cube); 3] ∧ shape vectors = [numel (shape cube); 3] ∧
    ∀ i, i < numel (shape cube) →
      getitem2 points i 0 = Ok (item1 (ravel cube) i) ∧
      getitem2 points i 1 = Ok (item1 (ravel cube) i) ∧
      getitem2 points i 2 = Ok (item1 (ravel cube) i) ∧
      getitem2 vectors i 0 = Ok (item1 (ravel cube) i) ∧
      getitem2 vectors i 1 = Ok (item1 (ravel cube) i) ∧
      getitem2 vectors i 2 = Ok (item1 (ravel cube) i).
Proof.
  apply (vectorscatter_flattens cube cube cube cube cube cube ∅).
  - intros a b Ha Hb. rewrite !elem_of_cons, elem_of_nil in Ha, Hb.
    intuition congruence.
  - intros a Ha. rewrite !elem_of_cons, elem_of_nil in Ha.
    assert (a = cube) as -> by intuition congruence. reflexivity.
Defined.

(** X11: [scalarscatter], whatever the signature: point [i] is (x, y, z) at
    element [i] of the flattened coordinates, no vectors are passed, and the
    scalars are the flattened scalars, or [None] when there are none. *)
Theorem scalarscatter_flattens args kwargs (x y z : arr) (s : option arr) :
  process_regular_scalars args = Ok (x, y, z, s) →
  wf x → wf y → wf z →
  ∃ points,
    scalarscatter args kwargs =
      Ok (AddData (GlyphData points VNone (value_of_option (ravel <$> s)))
            (default (VStr "ScalarScatter") (kwargs !! "name"))) ∧
    shape points = [numel (shape x); 3] ∧
    ∀ i, i < numel (shape x) →
      getitem2 points i 0 = Ok (item1 (ravel x) i) ∧
      getitem2 points i 1 = Ok (item1 (ravel y) i) ∧
      getitem2 points i 2 = Ok (item1 (ravel z) i).
Proof.
  intros Hp Hwx Hwy Hwz.
  destruct (process_regular_scalars_shapes _ _ _ _ _ Hp) as [Hxy Hyz].
  exists (points_of x y z). split; [|split].
  - unfold scalarscatter. rewrite Hp. simpl. rewrite c_ravel by done. reflexivity.
  - reflexivity.
  - intros i Hi. by apply points_of_row.
Qed.

Lemma scalarscatter_flattens_witness :
  ∃ points,
    scalarscatter [VArr cube] ∅ =
      Ok (AddData (GlyphData points VNone (value_of_option (ravel <$> Some cube)))
            (default (VStr "ScalarScatter") ((∅ : gmap string value) !! "name"))) ∧
    shape points = [numel (shape (indices3 2 2 2).1.1); 3] ∧
    ∀ i, i < numel (shape (indices3 2 2 2).1.1) →
      getitem2 points i 0 = Ok (item1 (ravel (indices3 2 2 2).1.1) i) ∧
      getitem2 points i 1 = Ok (item1 (ravel (indices3 2 2 2).1.2) i) ∧
      getitem2 points i 2 = Ok (item1 (ravel (indices3 2 2 2).2) i).
Proof.
  apply (scalarscatter_flattens [VArr cube] ∅
           (indices3 2 2 2).1.1 (indices3 2 2 2).1.2 (indices3 2 2 2).2 (Some cube));
    reflexivity.
Defined.

(** ** More on the regular-field builders *)

Lemma getitem3_Raise (a : arr) (i j k : nat) (e : exc) :
  getitem3 a i j k = Raise e → e = IndexError.
Proof.
  unfold getitem3. destruct (shape a) as [|n0 [|n1 [|n2 rest]]];
    try (by intros [= <-]).
  case_bool_decide; [discriminate | by intros [= <-]].
Qed.

Lemma getitem3_Ok (a r : arr) (i j k : nat) :
  getitem3 a i j k = Ok r →
  ∃ n0 n1 n2 rest, shape a = n0 :: n1 :: n2 :: rest ∧ i < n0 ∧ j < n1 ∧ k < n2.
Proof.
  unfold getitem3. destruct (shape a) as [|n0 [|n1 [|n2 rest]]];
    try discriminate.
  case_bool_decide; [|discriminate]. intros _. eauto 10.
Qed.

(** The index expressions of the two builders, on coordinates of one shape
    that lack a second sample along some axis (or a third axis). *)
Lemma deltas_index_error {B} (x y z : arr)
    (rest : arr → arr → arr → arr → arr → arr → result B) :
  shape y = shape x → shape z = shape x →
  ¬ (∃ n0 n1 n2 l, shape x = n0 :: n1 :: n2 :: l ∧ 2 ≤ n0 ∧ 2 ≤ n1 ∧ 2 ≤ n2) →
  (x100 ← getitem3 x 1 0 0; x000 ← getitem3 x 0 0 0;
   y010 ← getitem3 y 0 1 0; y000 ← getitem3 y 0 0 0;
   z001 ← getitem3 z 0 0 1; z000 ← getitem3 z 0 0 0;
   rest x100 x000 y010 y000 z001 z000) =
    Raise IndexError.
Proof.
  intros Hy Hz Hthin.
  destruct (getitem3 x 1 0 0) as [x100|e] eqn:E1;
    [|by rewrite (getitem3_Raise _ _ _ _ _ E1)].
  destruct (getitem3 x 0 0 0) as [x000|e] eqn:E2;
    [|by rewrite (getitem3_Raise _ _ _ _ _ E2)].
  destruct (getitem3 y 0 1 0) as [y010|e] eqn:E3;
    [|by rewrite (getitem3_Raise _ _ _ _ _ E3)].
  destruct (getitem3 y 0 0 0) as [y000|e] eqn:E4;
    [|by rewrite (getitem3_Raise _ _ _ _ _ E4)].
  destruct (getitem3 z 0 0 1) as [z001|e] eqn:E5;
    [|by rewrite (getitem3_Raise _ _ _ _ _ E5)].
  exfalso. apply Hthin.
  apply getitem3_Ok in E1 as (n0 & n1 & n2 & l & Hx & H0 & _ & _).
  apply getitem3_Ok in E3 as (m0 & m1 & m2 & l' & Hy' & _ & H1 & _).
  apply getitem3_Ok in E5 as (p0 & p1 & p2 & l'' & Hz' & _ & _ & H2).
  rewrite Hy, Hx in Hy'. rewrite Hz, Hx in Hz'. simplify_eq.
  exists m0, m1, m2, l'. repeat split; (done || lia).
Qed.

(** X12: a grid with fewer than three axes, or with a single sample (or none)
    along one of the first three, cannot be built into a regular field: both
    builders raise [IndexError] where they take the deltas. *)
Theorem regular_fields_need_two_samples :
  (∀ args kwargs (x y z u v w : arr),
     process_regular_vectors args = Ok (x, y, z, u, v, w) →
     ¬ (∃ n0 n1 n2 l, shape x = n0 :: n1 :: n2 :: l ∧ 2 ≤ n0 ∧ 2 ≤ n1 ∧ 2 ≤ n2) →
     vectorfield args kwargs = Raise IndexError) ∧
  (∀ args kwargs (x y z : arr) (s : option arr),
     process_regular_scalars args = Ok (x, y, z, s) →
     ¬ (∃ n0 n1 n2 l, shape x = n0 :: n1 :: n2 :: l ∧ 2 ≤ n0 ∧ 2 ≤ n1 ∧ 2 ≤ n2) →
     scalarfield args kwargs = Raise IndexError).
Proof.
  split.
  - intros args kwargs x y z u v w Hp Hthin.
    destruct (process_regular_vectors_shapes _ _ _ _ _ _ _ Hp) as (Hy & Hz & _).
    unfold vectorfield. rewrite Hp. simpl.
    by apply (deltas_index_error x y z).
  - intros args kwargs x y z s Hp Hthin.
    destruct (process_regular_scalars_shapes _ _ _ _ _ Hp) as [Hxy Hyz].
    unfold scalarfield. rewrite Hp. simpl. rewrite c_ravel by done. simpl.
    apply (deltas_index_error x y z); [congruence | congruence | done].
Qed.

Lemma regular_fields_need_two_samples_witness :
  vectorfield [VArr (ones [1; 2; 2]); VArr (ones [1; 2; 2]); VArr (ones [1; 2; 2])] ∅ =
    Raise IndexError ∧
  scalarfield [VArr five_points; VArr five_points; VArr five_points] ∅ =
    Raise IndexError.
Proof.
  split.
  - apply (proj1 regular_fields_need_two_samples
             [VArr (ones [1; 2; 2]); VArr (ones [1; 2; 2]); VArr (ones [1; 2; 2])] ∅
             (indices3 1 2 2).1.1 (indices3 1 2 2).1.2 (indices3 1 2 2).2
             (ones [1; 2; 2]) (ones [1; 2; 2]) (ones [1; 2; 2]));
      [reflexivity|].
    intros (n0 & n1 & n2 & l & Hsh & H0 & _). injection Hsh as <- _. lia.
  - apply (proj2 regular_fields_need_two_samples
             [VArr five_points; VArr five_points; VArr five_points] ∅
             five_points five_points five_points None);
      [reflexivity|].
    intros (n0 & n1 & n2 & l & Hsh & _). discriminate Hsh.
Defined.

Lemma reshape_singletons {A} (l : list A) :
  reshape (replicate (length l) 1) l = (λ a, [a]) <$> l.
Proof. induction l as [|a l IH]; [reflexivity|]. simpl. f_equal. exact IH. Qed.

Lemma concat_singletons {A} (a b c : list A) :
  concat (zip_with (λ p r, p ++ r)
            (zip_with (λ p q, p ++ q) ((λ e, [e]) <$> a) ((λ e, [e]) <$> b))
            ((λ e, [e]) <$> c)) = interleave3 a b c.
Proof.
  revert b c. induction a as [|p a IH]; intros [|q b] [|r c]; try reflexivity.
  simpl. do 3 f_equal. apply IH.
Qed.

Lemma take_3_drop {A} (l : list A) (n : nat) (p q r : A) :
  l !! n = Some p → l !! (n + 1) = Some q → l !! (n + 2) = Some r →
  take 3 (drop n l) = [p; q; r].
Proof.
  rewrite <- (Nat.add_0_r n) at 1. rewrite <- !lookup_drop.
  destruct (drop n l) as [|a [|b [|c l']]]; try discriminate.
  by intros [= ->] [= ->] [= ->].
Qed.

(** The vectors of a field: one (u, v, w) triple per grid point. *)
Lemma concatenate_components (u v w : arr) (nx ny nz : nat) :
  shape u = [nx; ny; nz] → shape v = [nx; ny; nz] → shape w = [nx; ny; nz] →
  wf u → wf v → wf w →
  concatenate_axis3 (newaxis u) (newaxis v) (newaxis w) =
    Ok (NdArray [nx; ny; nz; 3] (interleave3 (data u) (data v) (data w))).
Proof.
  intros Hu Hv Hw Hwu Hwv Hww. unfold concatenate_axis3, newaxis. rewrite Hu.
  simpl. f_equal. f_equal. unfold wf in *. rewrite Hu in Hwu.
  rewrite Hv in Hwv. rewrite Hw in Hww. simpl in *.
  replace (nx * ny * nz) with (length (data u)) at 1 by lia.
  replace (nx * ny * nz) with (length (data v)) at 1 by lia.
  replace (nx * ny * nz) with (length (data w)) by lia.
  rewrite !reshape_singletons. apply concat_singletons.
Qed.

(** X13: on a grid of three axes with at least two samples along each,
    [vectorfield] passes as vector data the array of shape (nx, ny, nz, 3)
    whose entry (i, j, k) is the triple (u, v, w) at (i, j, k), and asks for
    the input to be transposed. *)
Theorem vectorfield_vector_data args kwargs (x y z u v w : arr) (nx ny nz : nat) :
  process_regular_vectors args = Ok (x, y, z, u, v, w) →
  shape x = [nx; ny; nz] →
  wf x → wf y → wf z → wf u → wf v → wf w →
  2 ≤ nx → 2 ≤ ny → 2 ≤ nz →
  ∃ ds vectors name,
    vectorfield args kwargs = Ok (AddData (ArraySource ds) name) ∧
    transpose_input_array ds = Some true ∧
    vector_data ds = Some vectors ∧
    shape vectors = [nx; ny; nz; 3] ∧
    ∀ i j k, i < nx → j < ny → k < nz →
      getitem3 vectors i j k =
        Ok (NdArray [3] [item3 u i j k; item3 v i j k; item3 w i j k]).
Proof.
  intros Hp Hx Hwx Hwy Hwz Hwu Hwv Hww Hnx Hny Hnz.
  destruct (process_regular_vectors_shapes _ _ _ _ _ _ _ Hp)
    as (Hy & Hz & Hu & Hv & Hw).
  rewrite Hx in Hy, Hz, Hu, Hv, Hw.
  assert (∀ a : arr, shape a = [nx; ny; nz] → wf a → data a ≠ []) as Hne.
  { intros a Ha Hwa Hnil. unfold wf in Hwa. rewrite Ha, Hnil in Hwa.
    simpl in Hwa. nia. }
  destruct (amin_nonempty x (Hne x Hx Hwx)) as [xmin Hxmin].
  destruct (amin_nonempty y (Hne y Hy Hwy)) as [ymin Hymin].
  destruct (amin_nonempty z (Hne z Hz Hwz)) as [zmin Hzmin].
  unfold vectorfield. rewrite Hp. simpl.
  rewrite !(getitem3_scalar x nx ny nz), !(getitem3_scalar y nx ny nz),
    !(getitem3_scalar z nx ny nz) by (done || lia). simpl.
  rewrite (concatenate_components u v w nx ny nz) by done. simpl.
  rewrite Hxmin, Hymin, Hzmin. simpl. unfold pop. simpl.
  eexists _, _, _. split; [reflexivity|]. simpl.
  split; [reflexivity|]. split; [reflexivity|]. split; [reflexivity|].
  intros i j k Hi Hj Hk. unfold getitem3. simpl.
  rewrite bool_decide_eq_true_2 by done. f_equal. f_equal.
  pose proof (offset3_lt nx ny nz i j k Hi Hj Hk) as Hlt.
  assert (∀ a : arr, shape a = [nx; ny; nz] → wf a →
            data a !! ((i * ny + j) * nz + k) = Some (item3 a i j k)) as Hitem.
  { intros a Ha Hwa. unfold item3, wf in *. rewrite Ha in *. simpl in Hwa.
    unfold ravel_index; simpl.
    destruct (lookup_lt_is_Some_2 (data a) ((i * ny + j) * nz + k)) as [q Hq];
      [lia|]. by rewrite Hq. }
  destruct (interleave3_lookup (data u) (data v) (data w) ((i * ny + j) * nz + k)
              _ _ _ (Hitem u Hu Hwu) (Hitem v Hv Hwv) (Hitem w Hw Hww))
    as (H0 & H1 & H2).
  replace (((i * ny + j) * nz + k) * (3 * 1)) with (((i * ny + j) * nz + k) * 3)
    by lia.
  by apply take_3_drop.
Qed.

Lemma vectorfield_vector_data_witness :
  ∃ ds vectors name,
    vectorfield [VArr cube; VArr cube; VArr cube] ∅ =
      Ok (AddData (ArraySource ds) name) ∧
    transpose_input_array ds = Some true ∧
    vector_data ds = Some vectors ∧
    shape vectors = [2; 2; 2; 3] ∧
    ∀ i j k, i < 2 → j < 2 → k < 2 →
      getitem3 vectors i j k =
        Ok (NdArray [3] [item3 cube i j k; item3 cube i j k; item3 cube i j k]).
Proof.
  apply (vectorfield_vector_data [VArr cube; VArr cube; VArr cube] ∅
           (indices3 2 2 2).1.1 (indices3 2 2 2).1.2 (indices3 2 2 2).2
           cube cube cube 2 2 2);
    try reflexivity; lia.
Defined.

(** X14: whenever [vectorfield] returns, the array source was given the caller's
    [scalars] as scalar data, and no scalar data at all when the keyword is
    absent or [None]; the input is always transposed. *)
Theorem vectorfield_scalars_keyword args kwargs r :
  vectorfield args kwargs = Ok r →
  ∃ ds,
    reg_source r = ArraySource ds ∧
    transpose_input_array ds = Some true ∧
    scalar_data ds =
      match kwargs !! "scalars" with
      | Some v => if is_None v then None else Some v
      | None => None
      end.
Proof.
  unfold vectorfield, pop. intros H. inv_Ok H. subst r. simpl.
  eexists. split; [reflexivity|]. simpl. split; [reflexivity|].
  destruct (kwargs !! "scalars") as [v|]; simpl.
  - destruct (is_None v); [by rewrite lookup_empty | by rewrite lookup_insert_eq].
  - by rewrite lookup_empty.
Qed.

Lemma vectorfield_scalars_keyword_witness :
  ∃ ds,
    reg_source cube_field = ArraySource ds ∧
    transpose_input_array ds = Some true ∧
    scalar_data ds =
      match ({[ "scalars" := VArr cube ]} : gmap string value) !! "scalars" with
      | Some v => if is_None v then None else Some v
      | None => None
      end.
Proof.
  apply (vectorfield_scalars_keyword [VArr cube; VArr cube; VArr cube]
           {[ "scalars" := VArr cube ]} cube_field).
  by_evaluation.
Defined.

Lemma index_min (sh : list nat) (f : nat → nat) (N : nat) :
  0 < N → f 0 = 0 →
  is_min (NdArray sh ((λ n, Qc_of_nat (f n)) <$> seq 0 N)) (Q2Qc 0).
Proof.
  intros HN Hf. unfold is_min; simpl. split.
  - apply list_elem_of_lookup. exists 0.
    rewrite list_lookup_fmap, lookup_seq_lt by lia. simpl.
    by rewrite Hf, Qc_of_nat_0.
  - intros q (n & -> & _)%list_elem_of_fmap. apply Qc_of_nat_nonneg.
Qed.

Lemma indices3_deltas (nx ny nz : nat) :
  2 ≤ nx → 2 ≤ ny → 2 ≤ nz →
  let g := indices3 nx ny nz in
  deltas g.1.1 g.1.2 g.2 = [scalar (Q2Qc 1); scalar (Q2Qc 1); scalar (Q2Qc 1)] ∧
  item3 g.1.1 0 0 0 = Q2Qc 0 ∧ item3 g.1.2 0 0 0 = Q2Qc 0 ∧ item3 g.2 0 0 0 = Q2Qc 0.
Proof.
  intros Hnx Hny Hnz g.
  assert (∀ i j k, i < nx → j < ny → k < nz →
            item3 g.1.1 i j k = Qc_of_nat i ∧ item3 g.1.2 i j k = Qc_of_nat j ∧
            item3 g.2 i j k = Qc_of_nat k) as Hitem.
  { intros i j k Hi Hj Hk. unfold item3, ravel_index; simpl.
    pose proof (offset3_lt nx ny nz i j k Hi Hj Hk) as Hlt.
    destruct (offset3_div_mod ny nz i j k Hj Hk) as (H1 & H2 & H3).
    rewrite !list_lookup_fmap, !lookup_seq_lt by lia. simpl.
    by rewrite H1, H2, H3. }
  destruct (Hitem 0 0 0) as (Hx0 & Hy0 & Hz0); try lia.
  destruct (Hitem 1 0 0) as (Hx1 & _ & _); try lia.
  destruct (Hitem 0 1 0) as (_ & Hy1 & _); try lia.
  destruct (Hitem 0 0 1) as (_ & _ & Hz1); try lia.
  unfold deltas. rewrite Hx0, Hy0, Hz0, Hx1, Hy1, Hz1, Qc_of_nat_0, Qc_of_nat_1.
  split; [|done]. repeat f_equal; ring.
Qed.

(** X15: called with the field alone, both regular-field builders place it on the
    index grid: spacing (1, 1, 1) and origin (0, 0, 0), for every field of
    three axes with at least two samples along each. *)
Theorem regular_fields_on_index_grid :
  (∀ (u v w : arr) kwargs nx ny nz,
     shape u = [nx; ny; nz] → shape v = [nx; ny; nz] → shape w = [nx; ny; nz] →
     2 ≤ nx → 2 ≤ ny → 2 ≤ nz →
     ∃ ds name,
       vectorfield [VArr u; VArr v; VArr w] kwargs = Ok (AddData (ArraySource ds) name) ∧
       spacing ds = [scalar (Q2Qc 1); scalar (Q2Qc 1); scalar (Q2Qc 1)] ∧
       origin ds = [Q2Qc 0; Q2Qc 0; Q2Qc 0]) ∧
  (∀ (s : arr) kwargs nx ny nz,
     shape s = [nx; ny; nz] →
     2 ≤ nx → 2 ≤ ny → 2 ≤ nz →
     ∃ ds name,
       scalarfield [VArr s] kwargs = Ok (AddData (ArraySource ds) name) ∧
       scalar_data ds = Some (VArr s) ∧
       spacing ds = [scalar (Q2Qc 1); scalar (Q2Qc 1); scalar (Q2Qc 1)] ∧
       origin ds = [Q2Qc 0; Q2Qc 0; Q2Qc 0]).
Proof.
  assert (∀ nx ny nz, let g := indices3 nx ny nz in wf g.1.1 ∧ wf g.1.2 ∧ wf g.2)
    as Hwf.
  { intros nx ny nz. unfold wf; simpl. rewrite !length_fmap, !length_seq.
    repeat split; lia. }
  split.
  - intros u v w kwargs nx ny nz Hu Hv Hw Hnx Hny Hnz.
    destruct (Hwf nx ny nz) as (Hwx & Hwy & Hwz).
    destruct (indices3_deltas nx ny nz Hnx Hny Hnz) as (Hd & _).
    destruct (vectorfield_regular [VArr u; VArr v; VArr w] kwargs
                (indices3 nx ny nz).1.1 (indices3 nx ny nz).1.2 (indices3 nx ny nz).2
                u v w nx ny nz)
      as (ds & xmin & ymin & zmin & Hr & Hsp & Hor & Hm1 & Hm2 & Hm3); try done.
    { unfold process_regular_vectors. simpl. rewrite Hu. simpl.
      rewrite Hu, Hv, Hw. rewrite !bool_decide_eq_true_2 by done. reflexivity. }
    assert (0 < nx * ny * nz) by nia.
    exists ds, (VStr "VectorField"). split; [exact Hr|].
    split; [by rewrite Hsp|]. rewrite Hor.
    assert (xmin = Q2Qc 0) as ->.
    { apply (is_min_unique _ _ _ Hm1). apply index_min; [done|].
      apply Nat.Div0.div_0_l. }
    assert (ymin = Q2Qc 0) as ->.
    { apply (is_min_unique _ _ _ Hm2). apply index_min; [done|].
      rewrite Nat.Div0.div_0_l. apply Nat.Div0.mod_0_l. }
    assert (zmin = Q2Qc 0) as ->.
    { apply (is_min_unique _ _ _ Hm3). apply index_min; [done|].
      apply Nat.Div0.mod_0_l. }
    reflexivity.
  - intros s kwargs nx ny nz Hs Hnx Hny Hnz.
    destruct (Hwf nx ny nz) as (Hwx & Hwy & Hwz).
    destruct (indices3_deltas nx ny nz Hnx Hny Hnz) as (Hd & Hx0 & Hy0 & Hz0).
    assert (process_regular_scalars [VArr s] =
              Ok ((indices3 nx ny nz).1.1, (indices3 nx ny nz).1.2,
                  (indices3 nx ny nz).2, Some s)) as Hp.
    { unfold process_regular_scalars. simpl. rewrite Hs. simpl.
      rewrite Hs. rewrite !bool_decide_eq_true_2 by done. reflexivity. }
    destruct (scalarfield_regular [VArr s] kwargs _ _ _ _ nx ny nz Hp)
      as (ds & Hr & Hsp & Hor); try done.
    exists ds. eexists. split; [exact Hr|].
    split; [|split; [by rewrite Hsp | by rewrite Hor, Hx0, Hy0, Hz0]].
    unfold scalarfield in Hr. rewrite Hp in Hr. simpl in Hr.
    inv_Ok Hr. unfold _add_data in Hr. by simplify_eq.
Qed.

Lemma regular_fields_on_index_grid_witness :
  (∃ ds name,
     vectorfield [VArr cube; VArr cube; VArr cube] ∅ = Ok (AddData (ArraySource ds) name) ∧
     spacing ds = [scalar (Q2Qc 1); scalar (Q2Qc 1); scalar (Q2Qc 1)] ∧
     origin ds = [Q2Qc 0; Q2Qc 0; Q2Qc 0]) ∧
  (∃ ds name,
     scalarfield [VArr cube] ∅ = Ok (AddData (ArraySource ds) name) ∧
     scalar_data ds = Some (VArr cube) ∧
     spacing ds = [scalar (Q2Qc 1); scalar (Q2Qc 1); scalar (Q2Qc 1)] ∧
     origin ds = [Q2Qc 0; Q2Qc 0; Q2Qc 0]).
Proof.
  split.
  - apply (proj1 regular_fields_on_index_grid cube cube cube ∅ 2 2 2);
      try reflexivity; lia.
  - apply (proj2 regular_fields_on_index_grid cube ∅ 2 2 2);
      try reflexivity; lia.
Defined.

(** ** More on the 2D array builder *)

(** X16: what [array2dsource] rejects: a number of positional arguments other
    than 1 and 3; a single array that does not have two axes (its shape does
    not unpack into nx, ny); on a coordinate grid, scalars that do not have
    two axes; and empty coordinate arrays, which have no minimum. *)
Theorem array2dsource_rejects :
  (∀ args kwargs,
     length args ≠ 1 → length args ≠ 3 →
     array2dsource args kwargs = Raise (ValueError "wrong number of arguments")) ∧
  (∀ (s : arr) kwargs,
     length (shape s) ≠ 2 →
     ∃ msg, array2dsource [VArr s] kwargs = Raise (ValueError msg)) ∧
  (∀ (x y s : arr) kwargs,
     shape x = shape y → shape s = shape y → length (shape s) ≠ 2 →
     array2dsource [VArr x; VArr y; VArr s] kwargs =
       Raise (AssertionError "2D array required")) ∧
  (∀ (x y s : arr) kwargs nx ny,
     shape x = [nx; ny] → shape y = [nx; ny] → shape s = [nx; ny] →
     data x = [] →
     ∃ msg, array2dsource [VArr x; VArr y; VArr s] kwargs = Raise (ValueError msg)).
Proof.
  split; [|split; [|split]].
  - intros args kwargs H1 H3. unfold array2dsource.
    destruct args as [|a [|b [|c [|d l]]]]; simpl in *; try reflexivity; lia.
  - intros s kwargs Hlen. unfold array2dsource. simpl.
    destruct (shape s) as [|a [|b [|c l]]]; simpl in *; eauto; lia.
  - intros x y s kwargs Hx Hs Hlen. unfold array2dsource.
    rewrite process_regular_2d_scalars_three.
    rewrite bool_decide_eq_true_2 by done. simpl.
    destruct (shape s) as [|a [|b [|c l]]]; simpl in *; try reflexivity; lia.
  - intros x y s kwargs nx ny Hx Hy Hs Hd. unfold array2dsource.
    rewrite process_regular_2d_scalars_three.
    rewrite bool_decide_eq_true_2 by (by rewrite Hx, Hy, Hs). simpl.
    rewrite Hs. unfold amin. rewrite Hd. simpl. eauto.
Qed.

Lemma array2dsource_rejects_witness :
  array2dsource [VArr grid_x; VArr grid_s] ∅ =
    Raise (ValueError "wrong number of arguments") ∧
  (∃ msg, array2dsource [VArr cube] ∅ = Raise (ValueError msg)) ∧
  array2dsource [VArr cube; VArr cube; VArr cube] ∅ =
    Raise (AssertionError "2D array required") ∧
  (∃ msg, array2dsource [VArr (NdArray [0; 3] []); VArr (NdArray [0; 3] []);
                         VArr (NdArray [0; 3] [])] ∅ = Raise (ValueError msg)).
Proof.
  split; [|split; [|split]].
  - apply (proj1 array2dsource_rejects [VArr grid_x; VArr grid_s] ∅); simpl; lia.
  - apply (proj1 (proj2 array2dsource_rejects) cube ∅). simpl. lia.
  - apply (proj1 (proj2 (proj2 array2dsource_rejects)) cube cube cube ∅);
      [reflexivity | reflexivity | simpl; lia].
  - apply (proj2 (proj2 (proj2 array2dsource_rejects))
             (NdArray [0; 3] []) (NdArray [0; 3] []) (NdArray [0; 3] []) ∅ 0 3);
      reflexivity.
Defined.

Lemma Qc_max_ge_l (p q : Qc) : (p ≤ Qc_max p q)%Qc.
Proof. unfold Qc_max. case_decide; [done | apply Qcle_refl]. Qed.

Lemma Qc_max_ge_r (p q : Qc) : (q ≤ Qc_max p q)%Qc.
Proof.
  unfold Qc_max. case_decide; [apply Qcle_refl|].
  apply Qclt_le_weak. by apply Qcnot_le_lt.
Qed.

Lemma foldl_Qc_max (l : list Qc) (q : Qc) :
  let m := foldl Qc_max q l in
  m ∈ q :: l ∧ (q ≤ m)%Qc ∧ ∀ p, p ∈ l → (p ≤ m)%Qc.
Proof.
  revert q. induction l as [|p l IH]; intros q; simpl.
  - split; [apply list_elem_of_here|]. split; [apply Qcle_refl|].
    intros p Hp. by apply elem_of_nil in Hp.
  - destruct (IH (Qc_max q p)) as (Hin & Hle & Hall). split; [|split].
    + apply elem_of_cons in Hin as [->|Hin].
      * unfold Qc_max. case_decide; [|apply list_elem_of_here].
        apply list_elem_of_further, list_elem_of_here.
      * by do 2 apply list_elem_of_further.
    + eapply Qcle_trans; [apply Qc_max_ge_l | exact Hle].
    + intros p' [->|Hp']%elem_of_cons; [|by apply Hall].
      eapply Qcle_trans; [apply Qc_max_ge_r | exact Hle].
Qed.

Lemma amax_is_max (a : arr) (m : Qc) : amax a = Ok m → is_max a m.
Proof.
  unfold amax, is_max. destruct (data a) as [|q l]; [discriminate|].
  intros [= <-]. destruct (foldl_Qc_max l q) as (Hin & Hle & Hall).
  split; [exact Hin|]. intros p [->|Hp]%elem_of_cons; [exact Hle | by apply Hall].
Qed.

Lemma is_max_unique (a : arr) (m m' : Qc) : is_max a m → is_max a m' → m = m'.
Proof.
  intros [Hin Hle] [Hin' Hle']. apply Qcle_antisym; [by apply Hle' | by apply Hle].
Qed.

Lemma amin_of_is_min (a : arr) (m : Qc) : is_min a m → amin a = Ok m.
Proof.
  intros Hm. destruct (amin_nonempty a) as [m' Hm'].
  - destruct Hm as [Hin _]. intros Hnil. rewrite Hnil in Hin.
    by apply elem_of_nil in Hin.
  - rewrite Hm'. f_equal. apply (is_min_unique a); [by apply amin_is_min | done].
Qed.

Lemma amax_of_is_max (a : arr) (m : Qc) : is_max a m → amax a = Ok m.
Proof.
  intros Hm. destruct (amax a) as [m'|e] eqn:Hm'.
  - f_equal. apply (is_max_unique a); [by apply amax_is_max | done].
  - unfold amax in Hm'. destruct Hm as [Hin _].
    destruct (data a); [by apply elem_of_nil in Hin | discriminate].
Qed.

(** The samples of [numpy.linspace]: [n >= 2] of them, the first [start] and
    the last [stop]. *)
Lemma linspace_samples (start stop : Qc) (n : nat) :
  2 ≤ n →
  shape (linspace start stop n) = [n] ∧
  item1 (linspace start stop n) 0 = start ∧
  item1 (linspace start stop n) (n - 1) = stop.
Proof.
  intros Hn. destruct n as [|[|n]]; try lia.
  assert (Qc_of_nat (S (S n) - 1) ≠ Q2Qc 0) as Hne.
  { rewrite <- Qc_of_nat_0. unfold Qc_of_nat. intros Heq.
    apply (f_equal (λ q : Qc, Qnum (this q))) in Heq. simpl in Heq. lia. }
  assert (∀ i, i < S (S n) →
            item1 (linspace start stop (S (S n))) i =
              (start + Qc_of_nat i * ((stop - start) / Qc_of_nat (S (S n) - 1)))%Qc)
    as Hi.
  { intros i Hi. unfold item1, linspace.
    cbn [data]. rewrite list_lookup_fmap, lookup_seq_lt by lia. simpl. ring. }
  split; [reflexivity|]. split.
  - rewrite Hi by lia. rewrite Qc_of_nat_0. ring.
  - rewrite Hi by lia. field. exact Hne.
Qed.

(** X17: on a coordinate grid [array2dsource] lays the scalars over nx samples
    along x and ny samples along y; the x samples begin at the least and end
    at the greatest x coordinate, the y samples begin at the least and end at
    the greatest y coordinate. *)
Theorem array2dsource_axes (x y s : arr) (kwargs : gmap string value) (nx ny : nat) :
  shape x = [nx; ny] → shape y = [nx; ny] → shape s = [nx; ny] →
  data x ≠ [] → data y ≠ [] → 2 ≤ nx → 2 ≤ ny →
  ∃ sp name xlo xhi ylo yhi,
    array2dsource [VArr x; VArr y; VArr s] kwargs =
      Ok (AddData (StructuredPoints sp) name) ∧
    is_min x xlo ∧ is_max x xhi ∧ is_min y ylo ∧ is_max y yhi ∧
    shape (sp_xa sp) = [nx] ∧ shape (sp_ya sp) = [ny] ∧
    item1 (sp_xa sp) 0 = xlo ∧ item1 (sp_xa sp) (nx - 1) = xhi ∧
    item1 (sp_ya sp) 0 = ylo ∧ item1 (sp_ya sp) (ny - 1) = yhi.
Proof.
  intros Hx Hy Hs Hdx Hdy Hnx Hny.
  destruct (amin_nonempty x Hdx) as [xlo Hxlo].
  destruct (amin_nonempty y Hdy) as [ylo Hylo].
  assert (∃ xhi, amax x = Ok xhi) as [xhi Hxhi]
    by (unfold amax; destruct (data x); [done | eauto]).
  assert (∃ yhi, amax y = Ok yhi) as [yhi Hyhi]
    by (unfold amax; destruct (data y); [done | eauto]).
  destruct (linspace_samples xlo xhi nx Hnx) as (Hx1 & Hx2 & Hx3).
  destruct (linspace_samples ylo yhi ny Hny) as (Hy1 & Hy2 & Hy3).
  eexists _, _, xlo, xhi, ylo, yhi. split.
  - unfold array2dsource. rewrite process_regular_2d_scalars_three.
    rewrite bool_decide_eq_true_2 by (by rewrite Hx, Hy, Hs). simpl.
    rewrite Hs, Hxlo, Hxhi, Hylo, Hyhi. simpl. unfold pop. reflexivity.
  - simpl. split; [by apply amin_is_min|]. split; [by apply amax_is_max|].
    split; [by apply amin_is_min|]. split; [by apply amax_is_max|]. done.
Qed.

Lemma array2dsource_axes_witness :
  ∃ sp name xlo xhi ylo yhi,
    array2dsource [VArr ramp; VArr raised; VArr grid_s] ∅ =
      Ok (AddData (StructuredPoints sp) name) ∧
    is_min ramp xlo ∧ is_max ramp xhi ∧ is_min raised ylo ∧ is_max raised yhi ∧
    shape (sp_xa sp) = [2] ∧ shape (sp_ya sp) = [3] ∧
    item1 (sp_xa sp) 0 = xlo ∧ item1 (sp_xa sp) (2 - 1) = xhi ∧
    item1 (sp_ya sp) 0 = ylo ∧ item1 (sp_ya sp) (3 - 1) = yhi.
Proof.
  apply (array2dsource_axes ramp raised grid_s ∅ 2 3);
    try reflexivity; try discriminate; lia.
Defined.

(** X18: only the extremes of the coordinate arrays matter: two coordinate grids
    of the same shape with the same least and greatest x and y build the same
    data source, whatever lies between. *)
Theorem array2dsource_extremes_only (x y x' y' s : arr) (kwargs : gmap string value)
    (xlo xhi ylo yhi : Qc) :
  shape x = shape x' → shape y = shape y' →
  is_min x xlo → is_min x' xlo → is_max x xhi → is_max x' xhi →
  is_min y ylo → is_min y' ylo → is_max y yhi → is_max y' yhi →
  array2dsource [VArr x; VArr y; VArr s] kwargs =
  array2dsource [VArr x'; VArr y'; VArr s] kwargs.
Proof.
  intros Hx Hy H1 H1' H2 H2' H3 H3' H4 H4'.
  unfold array2dsource. rewrite !process_regular_2d_scalars_three.
  rewrite <- Hx, <- Hy. case_bool_decide; [|reflexivity]. simpl.
  destruct (shape s) as [|nx [|ny [|]]]; try reflexivity.
  by rewrite (amin_of_is_min x xlo), (amin_of_is_min x' xlo),
    (amax_of_is_max x xhi), (amax_of_is_max x' xhi),
    (amin_of_is_min y ylo), (amin_of_is_min y' ylo),
    (amax_of_is_max y yhi), (amax_of_is_max y' yhi).
Qed.

Lemma array2dsource_extremes_only_witness :
  array2dsource [VArr ramp; VArr ramp; VArr grid_s] ∅ =
  array2dsource [VArr bent; VArr bent; VArr grid_s] ∅.
Proof.
  assert (is_min ramp (Qc_of_nat 0)) by (apply amin_is_min; by_evaluation).
  assert (is_min bent (Qc_of_nat 0)) by (apply amin_is_min; by_evaluation).
  assert (is_max ramp (Qc_of_nat 5)) by (apply amax_is_max; by_evaluation).
  assert (is_max bent (Qc_of_nat 5)) by (apply amax_is_max; by_evaluation).
  by apply (array2dsource_extremes_only ramp ramp bent bent grid_s ∅
              (Qc_of_nat 0) (Qc_of_nat 5) (Qc_of_nat 0) (Qc_of_nat 5)).
Defined.

(** ** The surface builder *)

(** X19: [gridsource] never fails on its own; the elevations z double as the
    scalars when the keyword [scalars] is absent or [None], the caller's
    scalars are used otherwise, and the name is the caller's or "GridSource". *)
Theorem gridsource_scalars (x y z : value) (kwargs : gmap string value) :
  gridsource x y z kwargs =
    Ok (AddData
          (TrianglePolyData x y z
             match kwargs !! "scalars" with
             | Some v => if is_None v then z else v
             | None => z
             end)
          (default (VStr "GridSource") (kwargs !! "name"))).
Proof.
  unfold gridsource, pop, _add_data. simpl.
  rewrite lookup_delete_ne by done.
  destruct (kwargs !! "scalars") as [v|]; reflexivity.
Qed.
